(** * Sandbox preview and scroll synchronisation (inmanko/md-ai)

    A shallow embedding of two Vue single-file components,

      - [HtmlRenderBase.vue]: renders markup inside an iframe, injects the
        compiled style overrides and bridges scroll events to its parent;
      - [PreviewSandboxStack.vue]: mounts the editable preview and the
        sandbox preview side by side and shares one scroll position
        between them,

    followed by the properties proved about them.

    Conventions of the embedding.
      - A JavaScript number is a [Z]: scroll offsets are counted in whole
        position units.  [undefined] for an optional number is [None].
      - A JavaScript string is a [string] of bytes; case conversion acts
        on the ASCII letters, which is all a CSS property name contains.
      - Code that reads and writes the component instance, the iframe
        document, the console and the event channel is written in the
        monad [M] of section 4: state passing with an abrupt completion
        for a thrown exception. *)

From Stdlib Require Import String Ascii ZArith List Bool Lia DecimalString.
Import ListNotations.

Local Open Scope string_scope.
Local Open Scope Z_scope.

(* ================================================================== *)
(** * 1. JavaScript values and the operations the components use      *)
(* ================================================================== *)

Module Js.

(** The line feed written [\n] in the template literals of the source. *)
Definition LF : string := String (ascii_of_nat 10) EmptyString.

(** The double quote, for the attribute values of the HTML template. *)
Definition DQ : string := String (ascii_of_nat 34) EmptyString.

(** Untyped values.  The properties of an object are kept in the order in
    which [Object.entries] enumerates them. *)
#[warnings="-register-all"]
Inductive JsValue : Type :=
| JsUndefined
| JsNull
| JsBoolean (b : bool)
| JsNumber (n : Z)
| JsString (s : string)
| JsSymbol (description : string)
| JsArray (items : list JsValue)
| JsObject (props : list (string * JsValue)).

Inductive JsError : Type :=
| TypeError (message : string).

(** How the evaluation of an expression or a statement list completes. *)
Inductive Completion (A : Type) : Type :=
| Normal (a : A)
| Throw (e : JsError).

Arguments Normal {A} a.
Arguments Throw {A} e.

Definition cbind {A B : Type} (c : Completion A) (k : A -> Completion B)
  : Completion B :=
  match c with
  | Normal a => k a
  | Throw e => Throw e
  end.

Fixpoint mapM {A B : Type} (f : A -> Completion B) (l : list A)
  : Completion (list B) :=
  match l with
  | [] => Normal []
  | x :: rest =>
      cbind (f x) (fun y =>
      cbind (mapM f rest) (fun ys => Normal (y :: ys)))
  end.

(** [a || b] on numbers: [0] is the falsy number. *)
Definition or_number (a b : Z) : Z := if a =? 0 then b else a.

Definition Number_toString (n : Z) : string :=
  NilZero.string_of_int (Z.to_int n).

(** The abstract operation ToString, as a template literal applies it to
    each substitution.  A symbol cannot be converted. *)
Fixpoint ToString (v : JsValue) : Completion string :=
  match v with
  | JsUndefined => Normal "undefined"
  | JsNull => Normal "null"
  | JsBoolean true => Normal "true"
  | JsBoolean false => Normal "false"
  | JsNumber n => Normal (Number_toString n)
  | JsString s => Normal s
  | JsSymbol _ => Throw (TypeError "Cannot convert a Symbol value to a string")
  | JsArray items =>
      cbind
        ((fix items_toString (l : list JsValue) : Completion (list string) :=
            match l with
            | [] => Normal []
            | x :: rest =>
                cbind (match x with
                       | JsUndefined | JsNull => Normal EmptyString
                       | _ => ToString x
                       end) (fun s =>
                cbind (items_toString rest) (fun ss => Normal (s :: ss)))
            end) items)
        (fun ss => Normal (String.concat "," ss))
  | JsObject _ => Normal "[object Object]"
  end.

Fixpoint lookup (name : string) (props : list (string * JsValue))
  : option JsValue :=
  match props with
  | [] => None
  | (k, v) :: rest => if String.eqb k name then Some v else lookup name rest
  end.

(** The property read [v.name] for a name that is neither an index nor a
    built-in of a prototype ([styles], [selector]). *)
Definition GetProp (v : JsValue) (name : string) : Completion JsValue :=
  match v with
  | JsUndefined =>
      Throw (TypeError ("Cannot read properties of undefined (reading '"
                          ++ name ++ "')"))
  | JsNull =>
      Throw (TypeError ("Cannot read properties of null (reading '"
                          ++ name ++ "')"))
  | JsObject props =>
      match lookup name props with
      | Some x => Normal x
      | None => Normal JsUndefined
      end
  | _ => Normal JsUndefined
  end.

Fixpoint indexed_from (i : nat) (l : list JsValue) : list (string * JsValue) :=
  match l with
  | [] => []
  | x :: rest =>
      (Number_toString (Z.of_nat i), x) :: indexed_from (S i) rest
  end.

Fixpoint chars (s : string) : list JsValue :=
  match s with
  | EmptyString => []
  | String c rest => JsString (String c EmptyString) :: chars rest
  end.

(** [Object.entries(v)]: the own enumerable string-keyed properties. *)
Definition Object_entries (v : JsValue)
  : Completion (list (string * JsValue)) :=
  match v with
  | JsUndefined | JsNull =>
      Throw (TypeError "Cannot convert undefined or null to object")
  | JsObject props => Normal props
  | JsArray items => Normal (indexed_from 0 items)
  | JsString s => Normal (indexed_from 0 (chars s))
  | JsBoolean _ | JsNumber _ | JsSymbol _ => Normal []
  end.

(** The method call [v.map(f)]: only an array has the method. *)
Definition call_map {B : Type} (v : JsValue) (f : JsValue -> Completion B)
  : Completion (list B) :=
  match v with
  | JsArray items => mapM f items
  | JsUndefined =>
      Throw (TypeError "Cannot read properties of undefined (reading 'map')")
  | JsNull =>
      Throw (TypeError "Cannot read properties of null (reading 'map')")
  | _ => Throw (TypeError "styleOverrides.map is not a function")
  end.

Definition is_upper (c : ascii) : bool :=
  ((65 <=? nat_of_ascii c) && (nat_of_ascii c <=? 90))%nat.

(** [s.replace(/([A-Z])/g, `-$1`)]: every capital letter gets a hyphen in
    front of it. *)
Fixpoint replace_capitals (s : string) : string :=
  match s with
  | EmptyString => EmptyString
  | String c rest =>
      if is_upper c
      then String "-" (String c (replace_capitals rest))
      else String c (replace_capitals rest)
  end.

Definition lower_char (c : ascii) : ascii :=
  if is_upper c then ascii_of_nat (nat_of_ascii c + 32) else c.

(** [s.toLowerCase()]. *)
Fixpoint toLowerCase (s : string) : string :=
  match s with
  | EmptyString => EmptyString
  | String c rest => String (lower_char c) (toLowerCase rest)
  end.

End Js.

Import Js.

Notation "x <- c1 ;;; c2" := (cbind c1 (fun x => c2))
  (at level 61, c1 at next level, right associativity).

(* ================================================================== *)
(** * 2. The style compiler: the body of [generateStyleText]          *)
(* ================================================================== *)

Module StyleCompiler.

(** The arrow function mapped over [Object.entries(override.styles)]:
    [([key, value]) =>
       `  ${key.replace(/([A-Z])/g, `-$1`).toLowerCase()}: ${value} !important;`] *)
Definition declaration (entry : string * JsValue) : Completion string :=
  let '(key, value) := entry in
  v <- ToString value ;;;
  Normal ("  " ++ toLowerCase (replace_capitals key) ++ ": " ++ v
               ++ " !important;").

(** The arrow function mapped over [styleOverrides]:
    [(override) => { const styles = ... .join(`\n`)
                     return `${override.selector} {\n${styles}\n}` }] *)
Definition block (override : JsValue) : Completion string :=
  styles_value <- GetProp override "styles" ;;;
  entries <- Object_entries styles_value ;;;
  lines <- mapM declaration entries ;;;
  let styles := String.concat LF lines in
  selector_value <- GetProp override "selector" ;;;
  selector <- ToString selector_value ;;;
  Normal (selector ++ " {" ++ LF ++ styles ++ LF ++ "}").

(** The statements inside [try { ... }]. *)
Definition try_body (styleOverrides : JsValue) : Completion string :=
  blocks <- call_map styleOverrides block ;;;
  Normal (String.concat (LF ++ LF) blocks).

End StyleCompiler.

(* ================================================================== *)
(** * 3. The iframe document and the component instance               *)
(* ================================================================== *)

Module Dom.

(** An element that can be found by its id, with its text. *)
Record Element : Type := {
  tagName : string;
  id : string;
  textContent : string
}.

(** A reference to an element of the document: its place among the
    children of the head or of the body. *)
Inductive ElementRef : Type :=
| InHead (i : nat)
| InBody (i : nat).

(** The closures a component registers for the document's scroll event;
    [HtmlRenderBase] registers one kind, in [handleLoad]. *)
Inductive ScrollListener : Type :=
| ReportScroll.

(** The document inside the iframe: the two scroll offsets the component
    reads and writes, the elements in tree order (the head before the
    body) and the listeners of its scroll event. *)
Record Document : Type := {
  documentElement_scrollTop : Z;
  body_scrollTop : Z;
  head : list Element;
  body : list Element;
  scroll_listeners : list ScrollListener
}.

(** The iframe element: the payload bound to its [srcdoc] attribute and
    the document it shows, when there is one. *)
Record HTMLIFrameElement : Type := {
  srcdoc_attribute : string;
  contentDocument : option Document
}.

Fixpoint index_of_id (name : string) (l : list Element) (i : nat)
  : option nat :=
  match l with
  | [] => None
  | e :: rest =>
      if String.eqb (id e) name then Some i else index_of_id name rest (S i)
  end.

(** [doc.getElementById(name)]: the first element in tree order. *)
Definition getElementById (doc : Document) (name : string)
  : option ElementRef :=
  match index_of_id name (head doc) 0 with
  | Some i => Some (InHead i)
  | None =>
      match index_of_id name (body doc) 0 with
      | Some i => Some (InBody i)
      | None => None
      end
  end.

Definition with_text (text : string) (e : Element) : Element :=
  {| tagName := tagName e; id := id e; textContent := text |}.

Fixpoint update_nth (i : nat) (f : Element -> Element) (l : list Element)
  : list Element :=
  match l, i with
  | [], _ => []
  | e :: rest, O => f e :: rest
  | e :: rest, S j => e :: update_nth j f rest
  end.

Definition set_head (h : list Element) (doc : Document) : Document :=
  {| documentElement_scrollTop := documentElement_scrollTop doc;
     body_scrollTop := body_scrollTop doc;
     head := h;
     body := body doc;
     scroll_listeners := scroll_listeners doc |}.

Definition set_body (b : list Element) (doc : Document) : Document :=
  {| documentElement_scrollTop := documentElement_scrollTop doc;
     body_scrollTop := body_scrollTop doc;
     head := head doc;
     body := b;
     scroll_listeners := scroll_listeners doc |}.

(** [element.textContent = text] *)
Definition set_textContent (r : ElementRef) (text : string) (doc : Document)
  : Document :=
  match r with
  | InHead i => set_head (update_nth i (with_text text) (head doc)) doc
  | InBody i => set_body (update_nth i (with_text text) (body doc)) doc
  end.

(** [doc.head.appendChild(e)]: the new last child of the head. *)
Definition head_appendChild (e : Element) (doc : Document)
  : ElementRef * Document :=
  (InHead (List.length (head doc)), set_head (head doc ++ [e])%list doc).

(** [doc.documentElement.scrollTop = v] *)
Definition set_documentElement_scrollTop (v : Z) (doc : Document)
  : Document :=
  {| documentElement_scrollTop := v;
     body_scrollTop := body_scrollTop doc;
     head := head doc;
     body := body doc;
     scroll_listeners := scroll_listeners doc |}.

(** [doc.body.scrollTop = v] *)
Definition set_body_scrollTop (v : Z) (doc : Document) : Document :=
  {| documentElement_scrollTop := documentElement_scrollTop doc;
     body_scrollTop := v;
     head := head doc;
     body := body doc;
     scroll_listeners := scroll_listeners doc |}.

(** [doc.addEventListener(`scroll`, l)] *)
Definition addEventListener_scroll (l : ScrollListener) (doc : Document)
  : Document :=
  {| documentElement_scrollTop := documentElement_scrollTop doc;
     body_scrollTop := body_scrollTop doc;
     head := head doc;
     body := body doc;
     scroll_listeners := (scroll_listeners doc ++ [l])%list |}.

(** Decidable equality of the scroll state of two documents: the browser
    dispatches a scroll event when an offset has moved. *)
Definition same_scroll (d1 d2 : Document) : bool :=
  (documentElement_scrollTop d1 =? documentElement_scrollTop d2)
  && (body_scrollTop d1 =? body_scrollTop d2).

End Dom.

Import Dom.

(* ================================================================== *)
(** * 4. [HtmlRenderBase.vue]                                          *)
(* ================================================================== *)

Module HtmlRenderBase.

(** [defineProps<{ htmlContent: string; scrollTop?: number;
                   showModifiedMarkers?: boolean }>()].  An absent
    boolean prop is [false]. *)
Record Props : Type := {
  htmlContent : string;
  scrollTop : option Z;
  showModifiedMarkers : bool
}.

(** [defineEmits<{ scroll: [scrollTop: number]; load: [document: Document] }>()] *)
Inductive Emit : Type :=
| EmitScroll (scrollTop : Z)
| EmitLoad.

(** One mounted instance of the component, with what its code can reach:
    the props, the template ref of the iframe, the style overrides of the
    preview style store, the events emitted to the parent so far (oldest
    first) and the lines written with [console.error]. *)
Record Instance : Type := {
  props : Props;
  iframeRef : option HTMLIFrameElement;
  styleOverrides : JsValue;
  emitted : list Emit;
  console : list (string * JsError)
}.

(** ** The monad of the script block *)

Definition M (A : Type) : Type := Instance -> Completion A * Instance.

Definition ret {A : Type} (a : A) : M A := fun s => (Normal a, s).

Definition bind {A B : Type} (m : M A) (k : A -> M B) : M B :=
  fun s =>
    match m s with
    | (Normal a, s') => k a s'
    | (Throw e, s') => (Throw e, s')
    end.

(** [try { body } catch (e) { handler e }] *)
Definition try_catch {A : Type} (body_ : M A) (handler : JsError -> M A)
  : M A :=
  fun s =>
    match body_ s with
    | (Normal a, s') => (Normal a, s')
    | (Throw e, s') => handler e s'
    end.

(** An expression without effect on the instance. *)
Definition lift {A : Type} (c : Completion A) : M A := fun s => (c, s).

Definition get : M Instance := fun s => (Normal s, s).

Definition put (s : Instance) : M unit := fun _ => (Normal tt, s).

Notation "x <- m1 ;; m2" := (bind m1 (fun x => m2))
  (at level 61, m1 at next level, right associativity).
Notation "m1 ;; m2" := (bind m1 (fun _ => m2))
  (at level 61, right associativity).

Definition set_iframeRef (f : option HTMLIFrameElement) (s : Instance)
  : Instance :=
  {| props := props s; iframeRef := f; styleOverrides := styleOverrides s;
     emitted := emitted s; console := console s |}.

Definition set_props (p : Props) (s : Instance) : Instance :=
  {| props := p; iframeRef := iframeRef s;
     styleOverrides := styleOverrides s;
     emitted := emitted s; console := console s |}.

Definition set_styleOverrides (v : JsValue) (s : Instance) : Instance :=
  {| props := props s; iframeRef := iframeRef s; styleOverrides := v;
     emitted := emitted s; console := console s |}.

Definition set_emitted (l : list Emit) (s : Instance) : Instance :=
  {| props := props s; iframeRef := iframeRef s;
     styleOverrides := styleOverrides s;
     emitted := l; console := console s |}.

(** [emit(...)] *)
Definition emit (e : Emit) : M unit :=
  fun s => (Normal tt, set_emitted (emitted s ++ [e])%list s).

(** [console.error(label, e)] *)
Definition console_error (label : string) (e : JsError) : M unit :=
  fun s =>
    (Normal tt,
     {| props := props s; iframeRef := iframeRef s;
        styleOverrides := styleOverrides s;
        emitted := emitted s;
        console := (console s ++ [(label, e)])%list |}).

(** [iframeRef.value?.contentDocument]: [None] when the ref is empty or
    the iframe has no document. *)
Definition contentDocument_opt (s : Instance) : option Document :=
  match iframeRef s with
  | None => None
  | Some f => contentDocument f
  end.

(** [iframeRef.value.contentDocument], and then a property of it: the
    plain member access throws on an empty ref or a null document. *)
Definition the_document : M Document :=
  fun s =>
    match iframeRef s with
    | None =>
        (Throw (TypeError
           "Cannot read properties of undefined (reading 'contentDocument')"),
         s)
    | Some f =>
        match contentDocument f with
        | None => (Throw (TypeError "Cannot read properties of null"), s)
        | Some doc => (Normal doc, s)
        end
    end.

(** A write through the reference [doc]; the document is shared with the
    iframe, so the write is seen by every later read. *)
Definition write_document (doc : Document) : M unit :=
  fun s =>
    match iframeRef s with
    | None =>
        (Throw (TypeError
           "Cannot read properties of undefined (reading 'contentDocument')"),
         s)
    | Some f =>
        (Normal tt,
         set_iframeRef
           (Some {| srcdoc_attribute := srcdoc_attribute f;
                    contentDocument := Some doc |}) s)
    end.

Definition modify_document (f : Document -> Document) : M unit :=
  doc <- the_document ;; write_document (f doc).

(** ** The script block *)

(** [const STYLE_ELEMENT_ID = `preview-style-overrides`] *)
Definition STYLE_ELEMENT_ID : string := "preview-style-overrides".

(** [function generateStyleText()] *)
Definition generateStyleText : M string :=
  try_catch
    (s <- get ;;
     lift (StyleCompiler.try_body (styleOverrides s)))
    (fun e =>
       console_error "Failed to generate style overrides:" e ;;
       ret EmptyString).

(** [function updateIframeStyles()] *)
Definition updateIframeStyles : M unit :=
  s <- get ;;
  match contentDocument_opt s with
  | None => ret tt
  | Some _ =>
      doc <- the_document ;;
      styleElement <-
        match getElementById doc STYLE_ELEMENT_ID with
        | Some r => ret r
        | None =>
            let created :=
              {| tagName := "style"; id := STYLE_ELEMENT_ID;
                 textContent := EmptyString |} in
            let '(r, doc') := head_appendChild created doc in
            write_document doc' ;;
            ret r
        end ;;
      text <- generateStyleText ;;
      modify_document (set_textContent styleElement text)
  end.

(** [watch(() => previewStyleStore.styleOverrides,
           () => { updateIframeStyles() }, { deep: true })] *)
Definition watch_styleOverrides : M unit := updateIframeStyles.

(** The pieces of the template literal of [generateFullHtml] between its
    substitutions. *)
Definition HTML_BEFORE_OVERRIDES : string :=
  "
    <!DOCTYPE html>
    <html>
    <head>
      <meta charset=" ++ DQ ++ "UTF-8" ++ DQ ++ ">
      <meta name=" ++ DQ ++ "viewport" ++ DQ ++ " content=" ++ DQ ++ "width=device-width, initial-scale=1.0" ++ DQ ++ ">
      <style>
        * {
          margin: 0;
          padding: 0;
          box-sizing: border-box;
        }
        body {
          font-family: -apple-system, BlinkMacSystemFont, 'Segoe UI', 'Roboto', 'Oxygen', 'Ubuntu', 'Cantarell', 'Fira Sans', 'Droid Sans', 'Helvetica Neue', sans-serif;
          padding: 16px;
          overflow-y: auto;
          background: transparent;
        }
        img {
          max-width: 100%;
          height: auto;
          border-radius: 8px;
        }
        pre {
          overflow-x: auto;
          padding: 1em;
          background: #f5f5f5;
          border-radius: 8px;
        }
        code {
          font-family: 'JetBrains Mono', 'Fira Code', 'Consolas', 'Monaco', 'Courier New', monospace;
        }
        
        /* 样式覆盖注入 */
        ".

Definition HTML_BEFORE_MARKERS : string :=
  "

        /* 修改标记样式 (仅在 showModifiedMarkers 为 true 时生效) */
        ".

(** The branch of the conditional taken when [props.showModifiedMarkers]
    is true. *)
Definition MODIFIED_MARKER_STYLES : string :=
  "
        [data-sandbox-modified] {
          position: relative;
          outline: 2px dashed rgba(251, 191, 36, 0.8) !important;
          outline-offset: 4px;
          background: linear-gradient(135deg, rgba(251, 191, 36, 0.1) 0%, rgba(245, 158, 11, 0.05) 100%) !important;
          border-radius: 8px;
          animation: sandboxPulse 2s ease-in-out infinite;
        }
        [data-sandbox-modified]::before {
          content: '已修改';
          position: absolute;
          top: -10px;
          right: -10px;
          font-size: 10px;
          padding: 3px 8px;
          background: linear-gradient(135deg, #fbbf24, #f59e0b);
          color: white;
          border-radius: 6px;
          font-weight: 600;
          box-shadow: 0 2px 8px rgba(251, 191, 36, 0.3);
          z-index: 10;
        }
        @keyframes sandboxPulse {
          0%, 100% {
            outline-color: rgba(251, 191, 36, 0.6);
            box-shadow: 0 0 0 0 rgba(251, 191, 36, 0.2);
          }
          50% {
            outline-color: rgba(251, 191, 36, 1);
            box-shadow: 0 0 0 4px rgba(251, 191, 36, 0.1);
          }
        }
        ".

Definition HTML_BEFORE_CONTENT : string :=
  "

        /* 隐藏滚动条但保留滚动功能 */
        body::-webkit-scrollbar {
          display: none;
        }
        body {
          -ms-overflow-style: none;
          scrollbar-width: none;
        }
      </style>
    </head>
    <body id=" ++ DQ ++ "html-output" ++ DQ ++ ">
      ".

Definition HTML_AFTER_CONTENT : string :=
  "
    </body>
    </html>
  ".

(** [function generateFullHtml(content: string): string] *)
Definition generateFullHtml (content : string) : M string :=
  styleOverridesText <- generateStyleText ;;
  s <- get ;;
  ret (HTML_BEFORE_OVERRIDES
         ++ styleOverridesText
         ++ HTML_BEFORE_MARKERS
         ++ (if showModifiedMarkers (props s)
             then MODIFIED_MARKER_STYLES
             else EmptyString)
         ++ HTML_BEFORE_CONTENT
         ++ content
         ++ HTML_AFTER_CONTENT).

(** [const srcdoc = computed(() => generateFullHtml(props.htmlContent))] *)
Definition srcdoc : M string :=
  s <- get ;;
  generateFullHtml (htmlContent (props s)).

(** The listener registered in [handleLoad]:
    [() => { emit(`scroll`,
                  doc.documentElement.scrollTop || doc.body.scrollTop) }] *)
Definition scroll_listener (l : ScrollListener) : M unit :=
  match l with
  | ReportScroll =>
      doc <- the_document ;;
      emit (EmitScroll (or_number (documentElement_scrollTop doc)
                                  (body_scrollTop doc)))
  end.

(** [function handleLoad()] *)
Definition handleLoad : M unit :=
  s <- get ;;
  match contentDocument_opt s with
  | None => ret tt
  | Some _ =>
      updateIframeStyles ;;
      emit EmitLoad ;;
      modify_document (addEventListener_scroll ReportScroll) ;;
      s' <- get ;;
      match scrollTop (props s') with
      | Some v =>
          modify_document (set_documentElement_scrollTop v) ;;
          modify_document (set_body_scrollTop v)
      | None => ret tt
      end
  end.

(** [watch(() => props.scrollTop, (newVal) => { ... })] *)
Definition watch_scrollTop (newVal : option Z) : M unit :=
  s <- get ;;
  match contentDocument_opt s, newVal with
  | Some _, Some v =>
      doc <- the_document ;;
      let currentScroll :=
        or_number (documentElement_scrollTop doc) (body_scrollTop doc) in
      if Z.abs (currentScroll - v) >? 2
      then
        modify_document (set_documentElement_scrollTop v) ;;
        modify_document (set_body_scrollTop v)
      else ret tt
  | _, _ => ret tt
  end.

(** ** The template: [<iframe ref="iframeRef" :srcdoc="srcdoc" @load="handleLoad" />] *)

(** The patch of the [srcdoc] attribute at a render: the attribute is
    written when the computed payload differs from the one it holds. *)
Definition render : M unit :=
  payload <- srcdoc ;;
  s <- get ;;
  match iframeRef s with
  | None => ret tt
  | Some f =>
      if String.eqb (srcdoc_attribute f) payload
      then ret tt
      else
        put (set_iframeRef
               (Some {| srcdoc_attribute := payload;
                        contentDocument := contentDocument f |}) s)
  end.

(** The scroll offset the component takes as the document's position. *)
Definition currentScroll (doc : Document) : Z :=
  or_number (documentElement_scrollTop doc) (body_scrollTop doc).

End HtmlRenderBase.

Import HtmlRenderBase.

(* ================================================================== *)
(** * 5. [PreviewSandboxStack.vue]                                     *)
(* ================================================================== *)

Module PreviewSandboxStack.

(** What the script block holds: the refs taken from the two stores
    ([htmlContent] of the editor store, here [editorContent];
    [sandboxContent] and [isActive] of the sandbox store) and
    [const sharedScrollTop = ref(0)]. *)
Record State : Type := {
  editorContent : string;
  sandboxContent : string;
  isSandboxActive : bool;
  sharedScrollTop : Z
}.

Definition setup (editor sandbox : string) (active : bool) : State :=
  {| editorContent := editor; sandboxContent := sandbox;
     isSandboxActive := active; sharedScrollTop := 0 |}.

(** [function handleScroll(scrollTop: number) { sharedScrollTop.value = scrollTop }] *)
Definition handleScroll (scrollTop : Z) (st : State) : State :=
  {| editorContent := editorContent st;
     sandboxContent := sandboxContent st;
     isSandboxActive := isSandboxActive st;
     sharedScrollTop := scrollTop |}.

(** The two rendering surfaces of the template. *)
Inductive Surface : Type :=
| Preview    (* <HtmlElementEditBar ... />, always mounted *)
| Sandbox.   (* <HtmlRenderBase ... />, under v-if="isSandboxActive" *)

(** The props the template binds on each child, [None] for a child that
    is not rendered:
    [<HtmlElementEditBar :html-content="htmlContent"
                         :scroll-top="sharedScrollTop" @scroll="handleScroll" />]
    [<HtmlRenderBase :html-content="sandboxContent"
                     :scroll-top="sharedScrollTop" show-modified-markers
                     @scroll="handleScroll" />] *)
Definition bound_props (st : State) (x : Surface) : option Props :=
  match x with
  | Preview =>
      Some {| htmlContent := editorContent st;
              scrollTop := Some (sharedScrollTop st);
              showModifiedMarkers := false |}
  | Sandbox =>
      if isSandboxActive st
      then Some {| htmlContent := sandboxContent st;
                   scrollTop := Some (sharedScrollTop st);
                   showModifiedMarkers := true |}
      else None
  end.

End PreviewSandboxStack.

Import PreviewSandboxStack.

(* ================================================================== *)
(** * 6. The stack with its two surfaces, one event at a time          *)
(* ================================================================== *)

Module Sync.

Definition same_number (a b : option Z) : bool :=
  match a, b with
  | Some x, Some y => x =? y
  | None, None => true
  | _, _ => false
  end.

(** A child receives the props of a parent render.  A watcher runs when
    the value it watches has changed; the computed [srcdoc] is evaluated
    again, and the iframe patched, when a prop it reads has changed. *)
Definition receive_props (p : Props) (c : Instance) : Instance :=
  let old := props c in
  let c1 := set_props p c in
  let c2 :=
    if same_number (scrollTop old) (scrollTop p)
    then c1
    else snd (watch_scrollTop (scrollTop p) c1) in
  if String.eqb (htmlContent old) (htmlContent p)
     && Bool.eqb (showModifiedMarkers old) (showModifiedMarkers p)
  then c2
  else snd (render c2).

Fixpoint run_listeners (ls : list ScrollListener) (c : Instance) : Instance :=
  match ls with
  | [] => c
  | l :: rest => run_listeners rest (snd (scroll_listener l c))
  end.

(** The browser dispatches a scroll event of the iframe document: its
    listeners run in the order of their registration. *)
Definition dispatch_scroll (c : Instance) : Instance :=
  match contentDocument_opt c with
  | None => c
  | Some doc => run_listeners (scroll_listeners doc) c
  end.

(** The browser dispatches a scroll event of a document whose offsets a
    script has moved. *)
Definition scroll_moved (before after : Instance) : bool :=
  match contentDocument_opt before, contentDocument_opt after with
  | Some d1, Some d2 => negb (same_scroll d1 d2)
  | _, _ => false
  end.

(** The positions among [l] emitted with the [scroll] event. *)
Fixpoint scroll_reports (l : list Emit) : list Z :=
  match l with
  | [] => []
  | EmitScroll v :: rest => v :: scroll_reports rest
  | EmitLoad :: rest => scroll_reports rest
  end.

Definition surface_eqb (x y : Surface) : bool :=
  match x, y with
  | Preview, Preview | Sandbox, Sandbox => true
  | _, _ => false
  end.

(** Modelled from the spec: [HtmlElementEditBar.vue] is not among the
    sources.  The spec has both panels as render surfaces with the same
    inputs and the same [scroll] event, so the child mounted for the
    preview is an instance of the render surface, like the sandbox.

    The parent with its children: the instance mounted for each surface,
    if any, and the surfaces whose document has a scroll event waiting
    to be dispatched. *)
Record System : Type := {
  stack : State;
  surfaces : Surface -> option Instance;
  pending : list Surface
}.

Definition set_surface (x : Surface) (c : Instance) (sys : System) : System :=
  {| stack := stack sys;
     surfaces := fun y => if surface_eqb y x then Some c else surfaces sys y;
     pending := pending sys |}.

Definition set_pending (l : list Surface) (sys : System) : System :=
  {| stack := stack sys; surfaces := surfaces sys; pending := l |}.

Definition moved_surface (x : Surface) (before after : option Instance)
  : list Surface :=
  match before, after with
  | Some c, Some c' => if scroll_moved c c' then [x] else []
  | _, _ => []
  end.

(** What the parent's render makes of the child at [x]: it receives the
    props bound in the template, or is not rendered. *)
Definition rendered (sys : System) (x : Surface) : option Instance :=
  match surfaces sys x, bound_props (stack sys) x with
  | Some c, Some p => Some (receive_props p c)
  | _, _ => None
  end.

(** The render of the parent after a change of [sharedScrollTop]: the
    children receive their props, the preview first. *)
Definition flush (sys : System) : System :=
  {| stack := stack sys;
     surfaces := rendered sys;
     pending :=
       (pending sys
          ++ moved_surface Preview (surfaces sys Preview) (rendered sys Preview)
          ++ moved_surface Sandbox (surfaces sys Sandbox) (rendered sys Sandbox))%list |}.

(** A surface emits [scroll] with position [v]: the parent's handler runs
    at once, the children are rendered afterwards. *)
Definition report (v : Z) (sys : System) : System :=
  {| stack := handleScroll v (stack sys); surfaces := surfaces sys;
     pending := pending sys |}.

(** One turn of the event loop: the first waiting scroll event is
    dispatched, the positions its listeners emit go through
    [handleScroll], and the parent renders. *)
Definition step (sys : System) : System :=
  match pending sys with
  | [] => sys
  | x :: rest =>
      match surfaces sys x with
      | None => set_pending rest sys
      | Some c =>
          let c' := dispatch_scroll c in
          let fresh :=
            scroll_reports (skipn (List.length (emitted c)) (emitted c')) in
          flush (fold_left (fun s v => report v s) fresh
                           (set_surface x c' (set_pending rest sys)))
      end
  end.

Fixpoint run (n : nat) (sys : System) : System :=
  match n with
  | O => sys
  | S k => run k (step sys)
  end.

(** The user scrolls the viewport of surface [x] to [offset]. *)
Definition user_scroll (x : Surface) (offset : Z) (sys : System) : System :=
  match surfaces sys x with
  | None => sys
  | Some c =>
      let c' := snd (modify_document (set_documentElement_scrollTop offset) c) in
      set_pending (pending sys ++ moved_surface x (Some c) (Some c'))%list
                  (set_surface x c' sys)
  end.

(** The children show what the parent binds, and every document is
    within the dead zone of the shared position. *)
Definition settled (st : State) (x : Surface) (c : Instance) : Prop :=
  bound_props st x = Some (props c)
  /\ forall doc, contentDocument_opt c = Some doc ->
                 Z.abs (currentScroll doc - sharedScrollTop st) <= 2.

(** Nothing waits to be dispatched and every mounted child is settled. *)
Definition in_sync (sys : System) : Prop :=
  pending sys = []
  /\ forall x c, surfaces sys x = Some c -> settled (stack sys) x c.

End Sync.

Import Sync.

(* ================================================================== *)
(** * 7. Well-typed rules and the words of the specification          *)
(* ================================================================== *)

Module Rules.

(** Modelled from the spec: the type of a style override rule is declared
    in [usePreviewStyleStore], which is not among the sources.  The spec
    gives it as a selector with a mapping from property name to value;
    the component reads the two as [override.selector] and
    [override.styles]. *)
Record StyleOverride : Type := {
  selector : string;
  styles : list (string * string)
}.

Definition styles_to_js (l : list (string * string))
  : list (string * JsValue) :=
  map (fun kv => (fst kv, JsString (snd kv))) l.

(** The JavaScript object of a rule. *)
Definition to_js (r : StyleOverride) : JsValue :=
  JsObject [("selector", JsString (selector r));
            ("styles", JsObject (styles_to_js (styles r)))].

(** The store holding the sequence [rules]. *)
Definition with_rules (rules : list StyleOverride) (c : Instance)
  : Instance :=
  set_styleOverrides (JsArray (map to_js rules)) c.

(** ** The output format in the words of the specification *)









(** One declaration per line: [prop: value !important;]. *)
Definition spec_declaration (name value : string) : string :=
  "  " ++ name ++ ": " ++ value ++ " !important;".

(** One block per rule: [selector { declarations }]. *)
Definition spec_block (sel : string) (declarations : list string) : string :=
  sel ++ " {" ++ LF ++ String.concat LF declarations ++ LF ++ "}".

(** The hyphenated name the compiler gives a key. *)
Definition css_name (key : string) : string :=
  toLowerCase (replace_capitals key).

Definition compiled_block (r : StyleOverride) : string :=
  spec_block (selector r)
    (map (fun kv => spec_declaration (css_name (fst kv)) (snd kv))
         (styles r)).

(** [hay.includes(needle)] *)
Fixpoint starts_with (needle hay : string) : bool :=
  match needle, hay with
  | EmptyString, _ => true
  | String _ _, EmptyString => false
  | String a n', String b h' => Ascii.eqb a b && starts_with n' h'
  end.

Fixpoint contains (needle hay : string) : bool :=
  starts_with needle hay
  || match hay with
     | EmptyString => false
     | String _ rest => contains needle rest
     end.


End Rules.

Import Rules.

(* ================================================================== *)
(** * 8. Derived forms of the operations, and some concrete states    *)
(* ================================================================== *)

(** What the operations of sections 4 to 6 come to, case by case, as the
    lemmas of section 9 show; and the states the properties are
    instantiated at. *)

Definition log_failure (e : JsError) (c : Instance) : Instance :=
  {| props := props c; iframeRef := iframeRef c;
     styleOverrides := styleOverrides c; emitted := emitted c;
     console := (console c ++ [("Failed to generate style overrides:", e)])%list |}.

(** What a call of [generateStyleText] returns and leaves behind. *)
Definition style_text (c : Instance) : string :=
  match StyleCompiler.try_body (styleOverrides c) with
  | Normal text => text
  | Throw _ => EmptyString
  end.

Definition after_style (c : Instance) : Instance :=
  match StyleCompiler.try_body (styleOverrides c) with
  | Normal _ => c
  | Throw e => log_failure e c
  end.

(** The template literal of [generateFullHtml] with its substitutions. *)
Definition assemble (overrides : string) (markers : bool) (content : string)
  : string :=
  HTML_BEFORE_OVERRIDES
    ++ overrides
    ++ HTML_BEFORE_MARKERS
    ++ (if markers then MODIFIED_MARKER_STYLES else EmptyString)
    ++ HTML_BEFORE_CONTENT
    ++ content
    ++ HTML_AFTER_CONTENT.






Definition marked_document : string :=
  "<p data-sandbox-modified=" ++ DQ ++ "true" ++ DQ ++ ">x</p>".

Definition bare_instance (markers : bool) (overrides : JsValue) : Instance :=
  {| props := {| htmlContent := marked_document; scrollTop := None;
                 showModifiedMarkers := markers |};
     iframeRef := None;
     styleOverrides := overrides;
     emitted := [];
     console := [] |}.

(** The instance with [doc] as the document of its iframe. *)
Definition put_document (doc : Document) (c : Instance) : Instance :=
  match iframeRef c with
  | None => c
  | Some f =>
      set_iframeRef
        (Some {| srcdoc_attribute := srcdoc_attribute f;
                 contentDocument := Some doc |}) c
  end.

Definition scrolled_to (v : Z) (doc : Document) : Document :=
  set_body_scrollTop v (set_documentElement_scrollTop v doc).

Definition sample_document (top body_top : Z) : Document :=
  {| documentElement_scrollTop := top;
     body_scrollTop := body_top;
     head := [];
     body := [];
     scroll_listeners := [ReportScroll] |}.

Definition sample_instance (doc : option Document) : Instance :=
  {| props := {| htmlContent := marked_document; scrollTop := None;
                 showModifiedMarkers := false |};
     iframeRef := Some {| srcdoc_attribute := EmptyString;
                          contentDocument := doc |};
     styleOverrides := JsArray [];
     emitted := [];
     console := [] |}.

Definition payload_of (c : Instance) : string :=
  assemble (style_text c) (showModifiedMarkers (props c))
           (htmlContent (props c)).

(** The iframe after the patch of its [srcdoc] attribute. *)
Definition patched (payload : string) (c : Instance) : Instance :=
  match iframeRef c with
  | None => c
  | Some f =>
      if String.eqb (srcdoc_attribute f) payload
      then c
      else set_iframeRef
             (Some {| srcdoc_attribute := payload;
                      contentDocument := contentDocument f |}) c
  end.

(** The callback of the scroll watcher, case by case. *)
Definition watched (newVal : option Z) (c : Instance) : Instance :=
  match contentDocument_opt c, newVal with
  | Some doc, Some v =>
      if Z.abs (currentScroll doc - v) >? 2
      then put_document (scrolled_to v doc) c
      else c
  | _, _ => c
  end.

(** The instance after the watcher's part of [receive_props]. *)
Definition after_watcher (p : Props) (c : Instance) : Instance :=
  if same_number (scrollTop (props c)) (scrollTop p)
  then set_props p c
  else watched (scrollTop p) (set_props p c).

(** The positions a dispatch hands to [handleScroll]. *)
Definition reports_of (c : Instance) : list Z :=
  match contentDocument_opt c with
  | Some doc => map (fun _ => currentScroll doc) (scroll_listeners doc)
  | None => []
  end.



(** The store replaces [styleOverrides].  The deep watcher runs its
    callback before the render; the computed [srcdoc] has read the store
    through [generateStyleText], so it is evaluated again and the render
    patches the iframe with what it returns. *)
Definition store_changed (v : JsValue) (c : Instance) : Instance :=
  snd (render (snd (watch_styleOverrides (set_styleOverrides v c)))).

Definition srcdoc_attribute_opt (c : Instance) : option string :=
  match iframeRef c with
  | None => None
  | Some f => Some (srcdoc_attribute f)
  end.

(** Where [updateIframeStyles] writes: the element found by its id, or
    the style element it appends to the head. *)
Definition style_target (doc : Document) : ElementRef * Document :=
  match getElementById doc STYLE_ELEMENT_ID with
  | Some r => (r, doc)
  | None =>
      head_appendChild
        {| tagName := "style"; id := STYLE_ELEMENT_ID;
           textContent := EmptyString |} doc
  end.

(** An instance as [handleLoad] and a render leave it: the document
    scrolled to 250, no style override in the store. *)
Definition loaded_instance : Instance :=
  {| props := {| htmlContent := "<p>x</p>"; scrollTop := None;
                 showModifiedMarkers := false |};
     iframeRef :=
       Some {| srcdoc_attribute :=
                 assemble EmptyString false "<p>x</p>";
               contentDocument :=
                 Some {| documentElement_scrollTop := 250;
                         body_scrollTop := 0;
                         head := [{| tagName := "style";
                                     id := STYLE_ELEMENT_ID;
                                     textContent := EmptyString |}];
                         body := [];
                         scroll_listeners := [ReportScroll] |} |};
     styleOverrides := JsArray [];
     emitted := [EmitLoad];
     console := [] |}.

Definition one_rule : JsValue :=
  JsArray [to_js {| selector := "p"; styles := [("color", "red")] |}].

Definition loaded_surface (content : string) (markers : bool) : Instance :=
  {| props := {| htmlContent := content; scrollTop := Some 0;
                 showModifiedMarkers := markers |};
     iframeRef := Some {| srcdoc_attribute := EmptyString;
                          contentDocument := Some (sample_document 0 0) |};
     styleOverrides := JsArray [];
     emitted := [EmitLoad];
     console := [] |}.

(** Both panels mounted and loaded, nothing scrolled yet. *)
Definition sample_system : System :=
  {| stack := setup "<p>a</p>" "<p>b</p>" true;
     surfaces := fun x =>
       match x with
       | Preview => Some (loaded_surface "<p>a</p>" false)
       | Sandbox => Some (loaded_surface "<p>b</p>" true)
       end;
     pending := [] |}.

(** ** Further derived forms *)

(** The element a reference points at. *)
Definition element_at (r : ElementRef) (doc : Document) : option Element :=
  match r with
  | InHead i => nth_error (head doc) i
  | InBody i => nth_error (body doc) i
  end.

(** The document after [updateIframeStyles] has written [text]. *)
Definition styled (text : string) (doc : Document) : Document :=
  set_textContent (fst (style_target doc)) text (snd (style_target doc)).

(** The document after [handleLoad]: styled, listened to, and scrolled
    to the initial position when there is one. *)
Definition loaded_document (text : string) (initial : option Z)
           (doc : Document) : Document :=
  let listened := addEventListener_scroll ReportScroll (styled text doc) in
  match initial with
  | Some v => scrolled_to v listened
  | None => listened
  end.



(* ================================================================== *)
(** * 9. Properties                                                    *)
(* ================================================================== *)

(** ** 9.1 The style compiler *)

Lemma generateStyleText_eq (c : Instance) :
  generateStyleText c =
  match StyleCompiler.try_body (styleOverrides c) with
  | Normal text => (Normal text, c)
  | Throw e => (Normal EmptyString, log_failure e c)
  end.
Proof.
  unfold generateStyleText, try_catch, bind, get, lift.
  destruct (StyleCompiler.try_body (styleOverrides c)); reflexivity.
Qed.

(** Stores that make the statements under [try] throw: no array, a
    null rule, a rule without [styles], a value that cannot be converted
    to a string.  Each call returns the empty string and writes one line
    to the error console. *)
Example malformed_overrides_fall_back :
  let outcome (v : JsValue) :=
    let (r, c) := generateStyleText (bare_instance false v) in
    (r, List.length (console c)) in
  outcome JsUndefined = (Normal EmptyString, 1%nat)
  /\ outcome (JsString "p { color: red }") = (Normal EmptyString, 1%nat)
  /\ outcome (JsArray [JsNull]) = (Normal EmptyString, 1%nat)
  /\ outcome (JsArray [JsObject [("selector", JsString "p")]])
     = (Normal EmptyString, 1%nat)
  /\ outcome (JsArray [JsObject [("selector", JsString "p");
                                 ("styles",
                                  JsObject [("color", JsSymbol "red")])]])
     = (Normal EmptyString, 1%nat)
  /\ outcome (JsArray [JsObject [("selector", JsString "p");
                                 ("styles", JsObject [("zIndex", JsNumber 3)])]])
     = (Normal ("p {" ++ LF ++ "  z-index: 3 !important;" ++ LF ++ "}"),
        0%nat).
Proof. repeat split; vm_compute; reflexivity. Qed.

(** C5.  [generateStyleText] never raises.  Whatever value the store
    holds, the call completes normally: with the generated text when the
    statements under [try] complete, and otherwise with the empty string
    after one line on the error console. *)
Theorem generateStyleText_never_raises :
  forall c : Instance,
    (exists text,
        StyleCompiler.try_body (styleOverrides c) = Normal text
        /\ generateStyleText c = (Normal text, c))
    \/ (exists e,
        StyleCompiler.try_body (styleOverrides c) = Throw e
        /\ generateStyleText c = (Normal EmptyString, log_failure e c)).
Proof.
  intro c. rewrite generateStyleText_eq.
  destruct (StyleCompiler.try_body (styleOverrides c)) as [text | e].
  - left. exists text. split; reflexivity.
  - right. exists e. split; reflexivity.
Qed.

Lemma mapM_declaration_typed (l : list (string * string)) :
  mapM StyleCompiler.declaration (styles_to_js l) =
  Normal (map (fun kv => spec_declaration (css_name (fst kv)) (snd kv)) l).
Proof.
  induction l as [| [k v] l IH]; [reflexivity |].
  unfold styles_to_js in *. cbn [map mapM fst snd].
  rewrite IH. reflexivity.
Qed.

Lemma block_typed (r : StyleOverride) :
  StyleCompiler.block (to_js r) = Normal (compiled_block r).
Proof.
  unfold StyleCompiler.block, to_js.
  change (GetProp (JsObject [("selector", JsString (selector r));
                             ("styles", JsObject (styles_to_js (styles r)))])
                  "styles")
    with (Normal (JsObject (styles_to_js (styles r)))).
  cbn [cbind Object_entries].
  rewrite mapM_declaration_typed.
  reflexivity.
Qed.

Lemma try_body_typed (rules : list StyleOverride) :
  StyleCompiler.try_body (JsArray (map to_js rules)) =
  Normal (String.concat (LF ++ LF) (map compiled_block rules)).
Proof.
  unfold StyleCompiler.try_body, call_map.
  assert (H : mapM StyleCompiler.block (map to_js rules)
              = Normal (map compiled_block rules)).
  { induction rules as [| r rules IH]; [reflexivity |].
    cbn [map mapM]. rewrite block_typed, IH. reflexivity. }
  rewrite H. reflexivity.
Qed.

Lemma generateStyleText_typed (rules : list StyleOverride) (c : Instance) :
  generateStyleText (with_rules rules c) =
  (Normal (String.concat (LF ++ LF) (map compiled_block rules)),
   with_rules rules c).
Proof.
  rewrite generateStyleText_eq.
  unfold with_rules at 1. cbn [styleOverrides set_styleOverrides].
  rewrite try_body_typed. reflexivity.
Qed.

(** C6.  The text compiled from a sequence of rules depends on nothing
    but the sequence: two calls on instances holding the same sequence
    return the same text, a call leaves the instance as it found it (so a
    second call in a row returns the same text again), and the empty
    sequence compiles to the empty string. *)
Theorem compile_deterministic :
  forall (rules : list StyleOverride) (c1 c2 : Instance),
    fst (generateStyleText (with_rules rules c1))
      = fst (generateStyleText (with_rules rules c2))
    /\ snd (generateStyleText (with_rules rules c1)) = with_rules rules c1
    /\ fst (generateStyleText (snd (generateStyleText (with_rules rules c1))))
         = fst (generateStyleText (with_rules rules c1))
    /\ fst (generateStyleText (with_rules [] c1)) = Normal EmptyString.
Proof.
  intros rules c1 c2.
  rewrite !generateStyleText_typed. cbn [fst snd].
  rewrite generateStyleText_typed. repeat split; reflexivity.
Qed.

(** *** Property names *)







Lemma append_assoc (a b c : string) : (a ++ b) ++ c = a ++ (b ++ c).
Proof.
  induction a as [| x a IH]; [reflexivity |].
  cbn [append]. rewrite IH. reflexivity.
Qed.








(** ** 9.2 The payload and the marker styles *)

Lemma generateStyleText_run (c : Instance) :
  generateStyleText c = (Normal (style_text c), after_style c).
Proof.
  rewrite generateStyleText_eq. unfold style_text, after_style.
  destruct (StyleCompiler.try_body (styleOverrides c)); reflexivity.
Qed.

Lemma after_style_props (c : Instance) : props (after_style c) = props c.
Proof.
  unfold after_style.
  destruct (StyleCompiler.try_body (styleOverrides c)); reflexivity.
Qed.

Lemma after_style_iframeRef (c : Instance) :
  iframeRef (after_style c) = iframeRef c.
Proof.
  unfold after_style.
  destruct (StyleCompiler.try_body (styleOverrides c)); reflexivity.
Qed.

Lemma after_style_emitted (c : Instance) :
  emitted (after_style c) = emitted c.
Proof.
  unfold after_style.
  destruct (StyleCompiler.try_body (styleOverrides c)); reflexivity.
Qed.

Lemma after_style_styleOverrides (c : Instance) :
  styleOverrides (after_style c) = styleOverrides c.
Proof.
  unfold after_style.
  destruct (StyleCompiler.try_body (styleOverrides c)); reflexivity.
Qed.

Lemma generateFullHtml_run (content : string) (c : Instance) :
  generateFullHtml content c =
  (Normal (assemble (style_text c) (showModifiedMarkers (props c)) content),
   after_style c).
Proof.
  unfold generateFullHtml, bind. rewrite generateStyleText_run.
  unfold get, ret, assemble. rewrite after_style_props. reflexivity.
Qed.

(** *** Substrings *)

Lemma starts_with_app (n b : string) : starts_with n (n ++ b) = true.
Proof.
  induction n as [| x n IH]; [reflexivity |].
  cbn [append starts_with]. rewrite Ascii.eqb_refl, IH. reflexivity.
Qed.


Lemma contains_intro (n a b : string) : contains n (a ++ n ++ b) = true.
Proof.
  induction a as [| x a IH].
  - cbn [append]. destruct (n ++ b) eqn:E.
    + cbn [contains]. rewrite <- E, starts_with_app. reflexivity.
    + cbn [contains]. rewrite <- E, starts_with_app. reflexivity.
  - cbn [append contains]. rewrite IH. apply orb_true_r.
Qed.








Lemma assemble_with_markers (overrides content : string) :
  contains MODIFIED_MARKER_STYLES (assemble overrides true content) = true.
Proof.
  unfold assemble.
  rewrite <- (append_assoc overrides), <- (append_assoc HTML_BEFORE_OVERRIDES).
  apply contains_intro.
Qed.




(** ** 9.3 The document behind the iframe *)

Lemma the_document_run (c : Instance) (doc : Document) :
  contentDocument_opt c = Some doc -> the_document c = (Normal doc, c).
Proof.
  unfold contentDocument_opt, the_document.
  destruct (iframeRef c) as [f |]; [| discriminate].
  intros ->. reflexivity.
Qed.

Lemma write_document_run (c : Instance) (doc doc' : Document) :
  contentDocument_opt c = Some doc ->
  write_document doc' c = (Normal tt, put_document doc' c).
Proof.
  unfold contentDocument_opt, write_document, put_document.
  destruct (iframeRef c) as [f |]; [| discriminate].
  reflexivity.
Qed.

Lemma modify_document_run (f : Document -> Document) (c : Instance)
      (doc : Document) :
  contentDocument_opt c = Some doc ->
  modify_document f c = (Normal tt, put_document (f doc) c).
Proof.
  intro H. unfold modify_document, bind.
  rewrite (the_document_run c doc H). apply (write_document_run c doc), H.
Qed.

Lemma put_document_get (c : Instance) (doc doc' : Document) :
  contentDocument_opt c = Some doc ->
  contentDocument_opt (put_document doc' c) = Some doc'.
Proof.
  unfold contentDocument_opt, put_document.
  destruct (iframeRef c) as [f |]; [| discriminate].
  reflexivity.
Qed.

Lemma put_document_same (c : Instance) (doc : Document) :
  contentDocument_opt c = Some doc -> put_document doc c = c.
Proof.
  unfold contentDocument_opt, put_document.
  destruct c as [p [[a d] |] o e k]; cbn; [| discriminate].
  intros ->. reflexivity.
Qed.

Lemma put_document_twice (c : Instance) (d1 d2 : Document) :
  put_document d2 (put_document d1 c) = put_document d2 c.
Proof.
  unfold put_document.
  destruct c as [p [[a d] |] o e k]; reflexivity.
Qed.

Lemma put_document_props (c : Instance) (doc : Document) :
  props (put_document doc c) = props c.
Proof. unfold put_document. destruct (iframeRef c); reflexivity. Qed.

Lemma put_document_emitted (c : Instance) (doc : Document) :
  emitted (put_document doc c) = emitted c.
Proof. unfold put_document. destruct (iframeRef c); reflexivity. Qed.

Lemma currentScroll_scrolled_to (v : Z) (doc : Document) :
  currentScroll (scrolled_to v doc) = v.
Proof.
  unfold currentScroll, scrolled_to, or_number. cbn.
  destruct (v =? 0) eqn:E; reflexivity.
Qed.

Lemma watch_scrollTop_run (c : Instance) (doc : Document) (v : Z) :
  contentDocument_opt c = Some doc ->
  watch_scrollTop (Some v) c =
  (Normal tt,
   if Z.abs (currentScroll doc - v) >? 2
   then put_document (scrolled_to v doc) c
   else c).
Proof.
  intro H. unfold watch_scrollTop, bind at 1, get. rewrite H.
  unfold bind at 1. rewrite (the_document_run c doc H).
  fold (currentScroll doc).
  destruct (Z.abs (currentScroll doc - v) >? 2); [| reflexivity].
  unfold bind.
  rewrite (modify_document_run _ c doc H).
  rewrite (modify_document_run _ _ _ (put_document_get c doc _ H)).
  rewrite put_document_twice. reflexivity.
Qed.

Lemma watch_scrollTop_idle (c : Instance) (newVal : option Z) :
  contentDocument_opt c = None \/ newVal = None ->
  watch_scrollTop newVal c = (Normal tt, c).
Proof.
  intro H. unfold watch_scrollTop, bind, get.
  destruct H as [-> | ->]; [reflexivity |].
  destruct (contentDocument_opt c); reflexivity.
Qed.

(** ** 9.4 The scroll position *)

(** C1.  With a document behind the iframe, the callback of the watcher
    on [props.scrollTop] completes normally, and it writes the new
    position [p] to both scroll offsets exactly when
    [|current - p| > 2], where [current] is the offset the component
    reads from the document; otherwise it leaves the instance as it is.
    A position of 101 sent to a surface at 100 changes nothing. *)
Theorem scroll_applied_beyond_dead_zone :
  forall (c : Instance) (doc : Document) (p : Z),
    contentDocument_opt c = Some doc ->
    exists c' : Instance,
      watch_scrollTop (Some p) c = (Normal tt, c')
      /\ (Z.abs (currentScroll doc - p) > 2 ->
          c' = put_document (scrolled_to p doc) c
          /\ contentDocument_opt c' = Some (scrolled_to p doc)
          /\ currentScroll (scrolled_to p doc) = p)
      /\ (Z.abs (currentScroll doc - p) <= 2 -> c' = c)
      /\ (contentDocument_opt c' <> Some doc
          <-> Z.abs (currentScroll doc - p) > 2)
      /\ (currentScroll doc = 100 -> p = 101 -> c' = c).
Proof.
  intros c doc p H. rewrite (watch_scrollTop_run c doc p H).
  eexists. split; [reflexivity |].
  destruct (Z.abs (currentScroll doc - p) >? 2) eqn:E.
  - apply Z.gtb_lt in E.
    assert (Hdoc : contentDocument_opt (put_document (scrolled_to p doc) c)
                   = Some (scrolled_to p doc))
      by exact (put_document_get c doc _ H).
    split; [| split; [| split]].
    + intros _. split; [reflexivity |]. split; [exact Hdoc |].
      apply currentScroll_scrolled_to.
    + intro Hle. lia.
    + split; [intros _; lia |]. intros _. rewrite Hdoc. intro Heq.
      injection Heq as Heq.
      pose proof (currentScroll_scrolled_to p doc) as Hp.
      rewrite Heq in Hp. rewrite Hp in E. lia.
    + intros H100 ->. rewrite H100 in E. cbn in E. lia.
  - rewrite Z.gtb_ltb in E. apply Z.ltb_ge in E.
    split; [| split; [| split]].
    + intro Hgt. lia.
    + intros _. reflexivity.
    + split; [intro Hne; contradiction (Hne H) | intro Hgt; lia].
    + intros _ _. reflexivity.
Qed.

(** C1 at a surface at offset 100: position 101 is inside the dead zone
    and leaves it alone, position 150 is applied. *)
Lemma scroll_applied_beyond_dead_zone_witness :
  (exists c' : Instance,
      watch_scrollTop (Some 101)
        (sample_instance (Some (sample_document 100 0))) = (Normal tt, c')
      /\ c' = sample_instance (Some (sample_document 100 0)))
  /\ (exists c' : Instance,
      watch_scrollTop (Some 150)
        (sample_instance (Some (sample_document 100 0))) = (Normal tt, c')
      /\ contentDocument_opt c' = Some (sample_document 150 150)).
Proof.
  split.
  - destruct (scroll_applied_beyond_dead_zone
                (sample_instance (Some (sample_document 100 0)))
                (sample_document 100 0) 101 eq_refl)
      as (c' & Hrun & _ & Hin & _).
    exists c'. split; [exact Hrun |]. apply Hin. vm_compute. discriminate.
  - destruct (scroll_applied_beyond_dead_zone
                (sample_instance (Some (sample_document 100 0)))
                (sample_document 100 0) 150 eq_refl)
      as (c' & Hrun & Hout & _).
    exists c'. split; [exact Hrun |].
    destruct Hout as (_ & Hdoc & _); [vm_compute; reflexivity |].
    exact Hdoc.
Defined.

Lemma updateIframeStyles_idle (c : Instance) :
  contentDocument_opt c = None -> updateIframeStyles c = (Normal tt, c).
Proof.
  intro H. unfold updateIframeStyles, bind, get. rewrite H. reflexivity.
Qed.

(** C9.  Without a document behind the iframe (an empty ref, or an
    iframe whose document is null) the callback of the scroll watcher
    completes normally and leaves the whole instance as it was, whatever
    position it is given; so does the update of the injected styles. *)
Theorem scroll_before_ready_ignored :
  forall (c : Instance) (newVal : option Z),
    contentDocument_opt c = None ->
    watch_scrollTop newVal c = (Normal tt, c)
    /\ updateIframeStyles c = (Normal tt, c).
Proof.
  intros c newVal H. split.
  - apply watch_scrollTop_idle. left. exact H.
  - apply updateIframeStyles_idle, H.
Qed.

Lemma scroll_before_ready_ignored_witness :
  watch_scrollTop (Some 120) (sample_instance None)
    = (Normal tt, sample_instance None)
  /\ watch_scrollTop (Some 120) (bare_instance false (JsArray []))
     = (Normal tt, bare_instance false (JsArray [])).
Proof.
  split.
  - apply (scroll_before_ready_ignored (sample_instance None) (Some 120)).
    reflexivity.
  - apply (scroll_before_ready_ignored (bare_instance false (JsArray []))
             (Some 120)).
    reflexivity.
Defined.

Lemma scroll_listener_run (c : Instance) (doc : Document) :
  contentDocument_opt c = Some doc ->
  scroll_listener ReportScroll c =
  (Normal tt,
   set_emitted (emitted c ++ [EmitScroll (currentScroll doc)])%list c).
Proof.
  intro H. unfold scroll_listener, bind.
  rewrite (the_document_run c doc H). reflexivity.
Qed.

(** C3, as amended.  The listener of the document's scroll event emits
    one [scroll] event; its position is the document-level offset when
    that is not zero and the body-level offset otherwise.  This is the
    larger of the two whenever one of them is zero and neither is
    negative. *)
Theorem scroll_event_reports_first_nonzero_offset :
  forall (c : Instance) (doc : Document),
    contentDocument_opt c = Some doc ->
    let top := documentElement_scrollTop doc in
    let body_top := body_scrollTop doc in
    let reported := if top =? 0 then body_top else top in
    scroll_listener ReportScroll c
      = (Normal tt,
         set_emitted (emitted c ++ [EmitScroll reported])%list c)
    /\ (0 <= top -> 0 <= body_top -> top = 0 \/ body_top = 0 ->
        reported = Z.max top body_top).
Proof.
  intros c doc H top body_top reported. split.
  - apply (scroll_listener_run c doc H).
  - subst reported. intros Ht Hb Hz.
    destruct (top =? 0) eqn:E.
    + apply Z.eqb_eq in E. lia.
    + apply Z.eqb_neq in E. lia.
Qed.

Lemma scroll_event_reports_first_nonzero_offset_witness :
  scroll_listener ReportScroll (sample_instance (Some (sample_document 0 40)))
    = (Normal tt,
       set_emitted [EmitScroll 40]
         (sample_instance (Some (sample_document 0 40))))
  /\ 40 = Z.max 0 40.
Proof.
  destruct (scroll_event_reports_first_nonzero_offset
              (sample_instance (Some (sample_document 0 40)))
              (sample_document 0 40) eq_refl) as [Hrun Hmax].
  split; [exact Hrun |].
  apply Hmax; [discriminate | discriminate | left; reflexivity].
Defined.

(** C3, as stated, fails: with the document-level offset at 5 and the
    body-level offset at 10 the event carries 5, and the larger is 10. *)
Lemma scroll_report_not_maximum :
  emitted (snd (scroll_listener ReportScroll
                  (sample_instance (Some (sample_document 5 10)))))
    = [EmitScroll 5]
  /\ Z.max (documentElement_scrollTop (sample_document 5 10))
           (body_scrollTop (sample_document 5 10)) = 10.
Proof. split; reflexivity. Qed.

(** ** 9.5 Rendering and the delivery of props *)

Lemma srcdoc_run (c : Instance) :
  srcdoc c = (Normal (payload_of c), after_style c).
Proof.
  unfold srcdoc, bind at 1, get. apply generateFullHtml_run.
Qed.

Lemma render_run (c : Instance) :
  render c = (Normal tt, patched (payload_of c) (after_style c)).
Proof.
  unfold render, bind at 1. rewrite srcdoc_run.
  unfold bind, get, patched.
  destruct (iframeRef (after_style c)) as [f |]; [| reflexivity].
  destruct (String.eqb (srcdoc_attribute f) (payload_of c)); reflexivity.
Qed.

Lemma patched_props (payload : string) (c : Instance) :
  props (patched payload c) = props c.
Proof.
  unfold patched. destruct (iframeRef c) as [f |]; [| reflexivity].
  destruct (String.eqb _ _); reflexivity.
Qed.

Lemma patched_emitted (payload : string) (c : Instance) :
  emitted (patched payload c) = emitted c.
Proof.
  unfold patched. destruct (iframeRef c) as [f |]; [| reflexivity].
  destruct (String.eqb _ _); reflexivity.
Qed.

Lemma patched_document (payload : string) (c : Instance) :
  contentDocument_opt (patched payload c) = contentDocument_opt c.
Proof.
  unfold patched, contentDocument_opt.
  destruct (iframeRef c) as [f |] eqn:E; [| rewrite E; reflexivity].
  destruct (String.eqb _ _); [rewrite E |]; reflexivity.
Qed.

Lemma after_style_document (c : Instance) :
  contentDocument_opt (after_style c) = contentDocument_opt c.
Proof.
  unfold contentDocument_opt. rewrite after_style_iframeRef. reflexivity.
Qed.

Lemma watch_scrollTop_watched (newVal : option Z) (c : Instance) :
  watch_scrollTop newVal c = (Normal tt, watched newVal c).
Proof.
  unfold watched.
  destruct (contentDocument_opt c) as [doc |] eqn:E.
  - destruct newVal as [v |].
    + apply watch_scrollTop_run, E.
    + apply watch_scrollTop_idle. right. reflexivity.
  - apply watch_scrollTop_idle. left. exact E.
Qed.

Lemma watched_props (newVal : option Z) (c : Instance) :
  props (watched newVal c) = props c.
Proof.
  unfold watched. destruct (contentDocument_opt c); [| reflexivity].
  destruct newVal; [| reflexivity].
  destruct (_ >? _); [apply put_document_props | reflexivity].
Qed.

Lemma watched_emitted (newVal : option Z) (c : Instance) :
  emitted (watched newVal c) = emitted c.
Proof.
  unfold watched. destruct (contentDocument_opt c); [| reflexivity].
  destruct newVal; [| reflexivity].
  destruct (_ >? _); [apply put_document_emitted | reflexivity].
Qed.

Lemma receive_props_run (p : Props) (c : Instance) :
  receive_props p c =
  if String.eqb (htmlContent (props c)) (htmlContent p)
     && Bool.eqb (showModifiedMarkers (props c)) (showModifiedMarkers p)
  then after_watcher p c
  else patched (payload_of (after_watcher p c))
               (after_style (after_watcher p c)).
Proof.
  unfold receive_props, after_watcher.
  rewrite watch_scrollTop_watched, render_run. reflexivity.
Qed.

Lemma after_watcher_props (p : Props) (c : Instance) :
  props (after_watcher p c) = p.
Proof.
  unfold after_watcher. destruct (same_number _ _); [reflexivity |].
  rewrite watched_props. reflexivity.
Qed.

Lemma after_watcher_emitted (p : Props) (c : Instance) :
  emitted (after_watcher p c) = emitted c.
Proof.
  unfold after_watcher. destruct (same_number _ _); [reflexivity |].
  rewrite watched_emitted. reflexivity.
Qed.

Lemma receive_props_props (p : Props) (c : Instance) :
  props (receive_props p c) = p.
Proof.
  rewrite receive_props_run. destruct (_ && _).
  - apply after_watcher_props.
  - rewrite patched_props, after_style_props. apply after_watcher_props.
Qed.

Lemma receive_props_emitted (p : Props) (c : Instance) :
  emitted (receive_props p c) = emitted c.
Proof.
  rewrite receive_props_run. destruct (_ && _).
  - apply after_watcher_emitted.
  - rewrite patched_emitted, after_style_emitted. apply after_watcher_emitted.
Qed.

Lemma receive_props_document (p : Props) (c : Instance) :
  contentDocument_opt (receive_props p c)
  = contentDocument_opt (after_watcher p c).
Proof.
  rewrite receive_props_run. destruct (_ && _); [reflexivity |].
  rewrite patched_document, after_style_document. reflexivity.
Qed.

Lemma set_props_document (p : Props) (c : Instance) :
  contentDocument_opt (set_props p c) = contentDocument_opt c.
Proof. reflexivity. Qed.

Lemma same_scroll_refl (doc : Document) : same_scroll doc doc = true.
Proof. unfold same_scroll. rewrite !Z.eqb_refl. reflexivity. Qed.


(** What the document of a child is after it received its props. *)
Lemma after_watcher_cases (p : Props) (c : Instance) (v : Z) :
  scrollTop p = Some v ->
  match contentDocument_opt c with
  | None => contentDocument_opt (after_watcher p c) = None
  | Some doc =>
      if negb (same_number (scrollTop (props c)) (Some v))
         && (Z.abs (currentScroll doc - v) >? 2)
      then contentDocument_opt (after_watcher p c) = Some (scrolled_to v doc)
      else contentDocument_opt (after_watcher p c) = Some doc
  end.
Proof.
  intro Hv. unfold after_watcher. rewrite Hv.
  destruct (contentDocument_opt c) as [doc |] eqn:E.
  - destruct (same_number (scrollTop (props c)) (Some v)); cbn [negb andb].
    + exact E.
    + unfold watched. rewrite set_props_document, E.
      destruct (Z.abs (currentScroll doc - v) >? 2).
      * apply (put_document_get _ doc). exact E.
      * exact E.
  - destruct (same_number (scrollTop (props c)) (Some v)).
    + exact E.
    + unfold watched. rewrite set_props_document, E. exact E.
Qed.

(** ** 9.6 The stack and its two surfaces *)



Lemma handleScroll_twice (v w : Z) (st : State) :
  handleScroll v (handleScroll w st) = handleScroll v st.
Proof. reflexivity. Qed.

(** The props bound after [handleScroll v] are the props bound before
    with [v] for the scroll position. *)
Lemma bound_props_handleScroll (v : Z) (st : State) (x : Surface) :
  bound_props (handleScroll v st) x =
  match bound_props st x with
  | Some p => Some {| htmlContent := htmlContent p;
                      scrollTop := Some v;
                      showModifiedMarkers := showModifiedMarkers p |}
  | None => None
  end.
Proof.
  destruct x; cbn; [reflexivity |].
  destruct (isSandboxActive st); reflexivity.
Qed.

Lemma bound_props_scrollTop (st : State) (x : Surface) (p : Props) :
  bound_props st x = Some p -> scrollTop p = Some (sharedScrollTop st).
Proof.
  destruct x; cbn.
  - intro H. injection H as <-. reflexivity.
  - destruct (isSandboxActive st); [| discriminate].
    intro H. injection H as <-. reflexivity.
Qed.




(** C10.  [handleScroll] takes the position and no surface: after a
    report of [v], whoever sent it, the props bound on every rendered
    child carry [v], and every child mounted after the render has
    received [v] as its [scrollTop], the reporting one included.  A
    child whose document already stands at [v], as the reporter's does,
    keeps its document: only the dead zone of its watcher stops the
    echo. *)
Theorem both_surfaces_receive_shared_position :
  forall (sys : System) (v : Z),
    sharedScrollTop (stack (flush (report v sys))) = v
    /\ (forall x p,
          bound_props (stack (flush (report v sys))) x = Some p ->
          scrollTop p = Some v)
    /\ (forall x c p,
          surfaces sys x = Some c ->
          bound_props (stack sys) x = Some p ->
          exists c',
            surfaces (flush (report v sys)) x = Some c'
            /\ scrollTop (props c') = Some v)
    /\ (forall x c',
          surfaces (flush (report v sys)) x = Some c' ->
          scrollTop (props c') = Some v)
    /\ (forall x c doc c',
          surfaces sys x = Some c ->
          contentDocument_opt c = Some doc ->
          currentScroll doc = v ->
          surfaces (flush (report v sys)) x = Some c' ->
          contentDocument_opt c' = Some doc
          /\ emitted c' = emitted c).
Proof.
  intros sys v. cbn [flush report stack surfaces].
  split; [reflexivity |].
  assert (Hbound : forall x p,
             bound_props (handleScroll v (stack sys)) x = Some p ->
             scrollTop p = Some v).
  { intros x p H. apply bound_props_scrollTop in H. exact H. }
  split; [exact Hbound |].
  assert (Hget : forall x c',
             rendered (report v sys) x = Some c' ->
             exists c p, surfaces sys x = Some c
                         /\ bound_props (handleScroll v (stack sys)) x = Some p
                         /\ c' = receive_props p c).
  { intros x c' H. unfold rendered in H. cbn [report stack surfaces] in H.
    destruct (surfaces sys x) as [c |]; [| discriminate].
    destruct (bound_props (handleScroll v (stack sys)) x) as [p |] eqn:E;
      [| discriminate].
    injection H as <-. exists c, p. repeat split; assumption || reflexivity. }
  split; [| split].
  - intros x c p Hc Hp. unfold rendered. cbn [report stack surfaces].
    rewrite Hc, bound_props_handleScroll, Hp.
    eexists. split; [reflexivity |].
    rewrite receive_props_props. reflexivity.
  - intros x c' H. destruct (Hget x c' H) as (c & p & _ & Hp & ->).
    rewrite receive_props_props. apply (Hbound x p Hp).
  - intros x c doc c' Hc Hdoc Hcur H.
    destruct (Hget x c' H) as (c0 & p & Hc0 & Hp & ->).
    rewrite Hc in Hc0. injection Hc0 as <-.
    split; [| apply receive_props_emitted].
    rewrite receive_props_document.
    pose proof (after_watcher_cases p c v (Hbound x p Hp)) as Hcases.
    rewrite Hdoc in Hcases.
    replace (Z.abs (currentScroll doc - v) >? 2) with false in Hcases.
    + rewrite andb_false_r in Hcases. exact Hcases.
    + rewrite Hcur, Z.sub_diag. reflexivity.
Qed.

(** *** One dispatch of a scroll event *)

Lemma run_listeners_run (ls : list ScrollListener) (c : Instance)
      (doc : Document) :
  contentDocument_opt c = Some doc ->
  run_listeners ls c =
  set_emitted
    (emitted c ++ map (fun _ => EmitScroll (currentScroll doc)) ls)%list c.
Proof.
  revert c. induction ls as [| l ls IH]; intros c H.
  - cbn [run_listeners map]. rewrite app_nil_r. destruct c. reflexivity.
  - destruct l. cbn [run_listeners map].
    rewrite (scroll_listener_run c doc H). cbn [snd].
    rewrite IH by exact H. cbn [emitted set_emitted].
    rewrite <- app_assoc. reflexivity.
Qed.

Lemma skipn_length_app {A : Type} (l l' : list A) :
  skipn (List.length l) (l ++ l')%list = l'.
Proof. induction l as [| a l IH]; [reflexivity | exact IH]. Qed.

Lemma scroll_reports_const (v : Z) (ls : list ScrollListener) :
  scroll_reports (map (fun _ => EmitScroll v) ls) = map (fun _ => v) ls.
Proof.
  induction ls as [| l ls IH]; [reflexivity |].
  cbn [map scroll_reports]. rewrite IH. reflexivity.
Qed.

Lemma dispatch_scroll_reports (c : Instance) :
  scroll_reports (skipn (List.length (emitted c))
                        (emitted (dispatch_scroll c)))
  = reports_of c.
Proof.
  unfold dispatch_scroll, reports_of.
  destruct (contentDocument_opt c) as [doc |] eqn:E.
  - rewrite (run_listeners_run _ c doc E). cbn [emitted set_emitted].
    rewrite skipn_length_app. apply scroll_reports_const.
  - rewrite skipn_all. reflexivity.
Qed.

Lemma dispatch_scroll_props (c : Instance) :
  props (dispatch_scroll c) = props c.
Proof.
  unfold dispatch_scroll.
  destruct (contentDocument_opt c) as [doc |] eqn:E; [| reflexivity].
  rewrite (run_listeners_run _ c doc E). reflexivity.
Qed.

Lemma dispatch_scroll_document (c : Instance) :
  contentDocument_opt (dispatch_scroll c) = contentDocument_opt c.
Proof.
  unfold dispatch_scroll.
  destruct (contentDocument_opt c) as [doc |] eqn:E; [| exact E].
  rewrite (run_listeners_run _ c doc E). exact E.
Qed.

(** The stack after the reports of one dispatch, all of them [v]. *)
Lemma fold_report_stack (v : Z) (ls : list ScrollListener) (sys : System) :
  stack (fold_left (fun s w => report w s) (map (fun _ => v) ls) sys)
  = match ls with
    | [] => stack sys
    | _ :: _ => handleScroll v (stack sys)
    end.
Proof.
  revert sys. induction ls as [| l ls IH]; intro sys; [reflexivity |].
  cbn [map fold_left]. rewrite IH. destruct ls; reflexivity.
Qed.

Lemma fold_report_surfaces (l : list Z) (sys : System) :
  surfaces (fold_left (fun s w => report w s) l sys) = surfaces sys.
Proof.
  revert sys. induction l as [| w l IH]; intro sys; [reflexivity |].
  cbn [fold_left]. rewrite IH. reflexivity.
Qed.

Lemma fold_report_pending (l : list Z) (sys : System) :
  pending (fold_left (fun s w => report w s) l sys) = pending sys.
Proof.
  revert sys. induction l as [| w l IH]; intro sys; [reflexivity |].
  cbn [fold_left]. rewrite IH. reflexivity.
Qed.

Lemma surface_eqb_eq (x y : Surface) : surface_eqb x y = true <-> x = y.
Proof. destruct x, y; cbn; split; congruence. Qed.

Lemma surface_eqb_refl (x : Surface) : surface_eqb x x = true.
Proof. destruct x; reflexivity. Qed.

(** *** A render that changes nothing *)




(** *** A turn of the event loop that finds every child settled *)



(** *** The render after a report *)








(** ** 9.7 A change of the style overrides *)

Lemma style_text_put_document (doc : Document) (c : Instance) :
  style_text (put_document doc c) = style_text c.
Proof.
  unfold style_text, put_document. destruct (iframeRef c); reflexivity.
Qed.

Lemma after_style_put_document (doc : Document) (c : Instance) :
  after_style (put_document doc c) = put_document doc (after_style c).
Proof.
  unfold after_style, put_document.
  destruct (iframeRef c) as [f |] eqn:E; cbn [styleOverrides set_iframeRef].
  - destruct (StyleCompiler.try_body (styleOverrides c)); cbn; rewrite E;
      reflexivity.
  - destruct (StyleCompiler.try_body (styleOverrides c)); cbn; rewrite E;
      reflexivity.
Qed.

Lemma updateIframeStyles_run (c : Instance) (doc : Document) :
  contentDocument_opt c = Some doc ->
  updateIframeStyles c =
  (Normal tt,
   put_document
     (set_textContent (fst (style_target doc)) (style_text c)
                      (snd (style_target doc)))
     (after_style c)).
Proof.
  intro H. unfold updateIframeStyles, bind at 1, get. rewrite H.
  unfold bind at 1. rewrite (the_document_run c doc H).
  unfold style_target.
  destruct (getElementById doc STYLE_ELEMENT_ID) as [r |].
  - unfold bind, ret. rewrite generateStyleText_run. cbn [fst snd].
    apply (modify_document_run _ _ doc).
    rewrite after_style_document. exact H.
  - cbn [head_appendChild fst snd]. unfold bind, ret.
    rewrite (write_document_run c doc _ H).
    rewrite generateStyleText_run, style_text_put_document,
      after_style_put_document.
    rewrite (modify_document_run _ _ _
               (put_document_get (after_style c) doc _
                  (eq_trans (after_style_document c) H))).
    rewrite put_document_twice. reflexivity.
Qed.

(** The in-place half of the update: a call of [updateIframeStyles]
    completes normally and keeps the scroll offsets and the listeners of
    the document, the payload held by the iframe, the props and the
    events emitted. *)
Lemma updateIframeStyles_in_place (c : Instance) (doc : Document) :
  contentDocument_opt c = Some doc ->
  exists c' doc',
    updateIframeStyles c = (Normal tt, c')
    /\ contentDocument_opt c' = Some doc'
    /\ documentElement_scrollTop doc' = documentElement_scrollTop doc
    /\ body_scrollTop doc' = body_scrollTop doc
    /\ scroll_listeners doc' = scroll_listeners doc
    /\ srcdoc_attribute_opt c' = srcdoc_attribute_opt c
    /\ props c' = props c
    /\ emitted c' = emitted c.
Proof.
  intro H. rewrite (updateIframeStyles_run c doc H).
  eexists. eexists. split; [reflexivity |].
  assert (H' : contentDocument_opt (after_style c) = Some doc)
    by (rewrite after_style_document; exact H).
  split; [apply (put_document_get _ doc), H' |].
  assert (Hattr : forall d, srcdoc_attribute_opt (put_document d (after_style c))
                            = srcdoc_attribute_opt c).
  { intro d. unfold srcdoc_attribute_opt, put_document.
    rewrite after_style_iframeRef.
    destruct (iframeRef c) as [f |] eqn:E; cbn [iframeRef set_iframeRef].
    - reflexivity.
    - rewrite after_style_iframeRef, E. reflexivity. }
  rewrite put_document_props, put_document_emitted, after_style_props,
    after_style_emitted, Hattr.
  unfold style_target.
  destruct (getElementById doc STYLE_ELEMENT_ID) as [[i | i] |];
    repeat split; reflexivity.
Qed.

(** C4 at a loaded instance whose store goes from no rule to the rule
    [p { color: red }].  The callback of the watcher overwrites the text
    of the injected style element in place; but the payload computed for
    the iframe has the compiled text in it, so it is no longer the
    payload the iframe holds, and the render gives the iframe the new
    one. *)
Theorem style_change_replaces_payload :
  srcdoc_attribute_opt loaded_instance
    = Some (assemble EmptyString false "<p>x</p>")
  /\ fst (srcdoc loaded_instance)
     = Normal (assemble EmptyString false "<p>x</p>")
  /\ option_map head
       (contentDocument_opt
          (snd (watch_styleOverrides
                  (set_styleOverrides one_rule loaded_instance))))
     = Some [{| tagName := "style"; id := STYLE_ELEMENT_ID;
                textContent := "p {" ++ LF ++ "  color: red !important;"
                                     ++ LF ++ "}" |}]
  /\ fst (srcdoc (set_styleOverrides one_rule loaded_instance))
     = Normal (assemble ("p {" ++ LF ++ "  color: red !important;"
                               ++ LF ++ "}") false "<p>x</p>")
  /\ String.eqb
       (assemble ("p {" ++ LF ++ "  color: red !important;" ++ LF ++ "}")
                 false "<p>x</p>")
       (assemble EmptyString false "<p>x</p>") = false
  /\ srcdoc_attribute_opt (store_changed one_rule loaded_instance)
     = Some (assemble ("p {" ++ LF ++ "  color: red !important;"
                            ++ LF ++ "}") false "<p>x</p>").
Proof.
  repeat split; vm_compute; reflexivity.
Qed.

(** ** 9.8 The stack at a concrete state *)

Lemma sample_system_in_sync : in_sync sample_system.
Proof.
  split; [reflexivity |].
  intros [] c H; injection H as <-; (split; [reflexivity |]);
    intros doc Hd; injection Hd as <-; vm_compute; discriminate.
Qed.


(** The same run, turn by turn: the sandbox takes the position, echoes
    it once, and nothing more is waiting. *)
Example preview_scrolled_to_100 :
  let view sys :=
    (sharedScrollTop (stack sys),
     option_map currentScroll
       (match surfaces sys Preview with
        | Some c => contentDocument_opt c | None => None end),
     option_map currentScroll
       (match surfaces sys Sandbox with
        | Some c => contentDocument_opt c | None => None end),
     option_map emitted (surfaces sys Sandbox),
     pending sys) in
  view (user_scroll Preview 100 sample_system)
    = (0, Some 100, Some 0, Some [EmitLoad], [Preview])
  /\ view (run 1 (user_scroll Preview 100 sample_system))
     = (100, Some 100, Some 100, Some [EmitLoad], [Sandbox])
  /\ view (run 2 (user_scroll Preview 100 sample_system))
     = (100, Some 100, Some 100, Some [EmitLoad; EmitScroll 100], []).
Proof. repeat split; vm_compute; reflexivity. Qed.

(** C10 at the two loaded panels: the sandbox reports 100. *)
Lemma both_surfaces_receive_shared_position_witness :
  (exists c',
      surfaces (flush (report 100 sample_system)) Preview = Some c'
      /\ scrollTop (props c') = Some 100)
  /\ (exists c',
      surfaces (flush (report 100 sample_system)) Sandbox = Some c'
      /\ scrollTop (props c') = Some 100).
Proof.
  destruct (both_surfaces_receive_shared_position sample_system 100)
    as (_ & _ & Hmounted & _).
  split.
  - apply (Hmounted Preview (loaded_surface "<p>a</p>" false)
             {| htmlContent := "<p>a</p>"; scrollTop := Some 0;
                showModifiedMarkers := false |});
      reflexivity.
  - apply (Hmounted Sandbox (loaded_surface "<p>b</p>" true)
             {| htmlContent := "<p>b</p>"; scrollTop := Some 0;
                showModifiedMarkers := true |});
      reflexivity.
Defined.

(* ================================================================== *)
(** * 10. Further properties of the two components                     *)
(* ================================================================== *)

(** ** 10.1 The style compiler on rules of any shape *)

Lemma mapM_normal {A B : Type} (f : A -> Completion B) (l : list A)
      (ys : list B) :
  Forall2 (fun x y => f x = Normal y) l ys -> mapM f l = Normal ys.
Proof.
  induction 1 as [| x y l ys Hxy _ IH]; [reflexivity |].
  cbn [mapM]. rewrite Hxy. cbn [cbind]. rewrite IH. reflexivity.
Qed.

Lemma mapM_throw {A B : Type} (f : A -> Completion B) (l : list A)
      (x : A) (e : JsError) :
  In x l -> f x = Throw e -> exists e', mapM f l = Throw e'.
Proof.
  intros Hin Hx. induction l as [| a l IH]; [destruct Hin |].
  cbn [mapM]. destruct (f a) as [y | e0] eqn:Ea.
  - cbn [cbind]. destruct Hin as [-> | Hin].
    + rewrite Hx in Ea. discriminate Ea.
    + destruct (IH Hin) as [e' ->]. exists e'. reflexivity.
  - exists e0. reflexivity.
Qed.

(** X1.  The rules compile all or nothing.  When every rule of the array
    compiles, the text is the blocks in the order of the rules, joined by
    an empty line, and nothing is logged; when one rule fails, whatever
    the others are, the text is empty and one line is logged. *)
Theorem one_failing_rule_empties_the_stylesheet :
  forall (c : Instance) (items : list JsValue),
    styleOverrides c = JsArray items ->
    (forall blocks : list string,
        Forall2 (fun item b => StyleCompiler.block item = Normal b)
                items blocks ->
        generateStyleText c
        = (Normal (String.concat (LF ++ LF) blocks), c))
    /\ (forall (item : JsValue) (e : JsError),
          In item items ->
          StyleCompiler.block item = Throw e ->
          exists e',
            generateStyleText c = (Normal EmptyString, log_failure e' c)).
Proof.
  intros c items Hc. split.
  - intros blocks H. rewrite generateStyleText_eq, Hc.
    unfold StyleCompiler.try_body, call_map.
    rewrite (mapM_normal _ _ _ H). reflexivity.
  - intros item e Hin He. rewrite generateStyleText_eq, Hc.
    unfold StyleCompiler.try_body, call_map.
    destruct (mapM_throw _ _ _ _ Hin He) as [e' ->].
    exists e'. reflexivity.
Qed.

(** X1 at a store with a good rule before a null one. *)
Lemma one_failing_rule_empties_the_stylesheet_witness :
  exists e',
    generateStyleText
      (bare_instance false
         (JsArray [to_js {| selector := "p"; styles := [("color", "red")] |};
                   JsNull]))
    = (Normal EmptyString,
       log_failure e'
         (bare_instance false
            (JsArray [to_js {| selector := "p";
                               styles := [("color", "red")] |};
                      JsNull]))).
Proof.
  destruct (one_failing_rule_empties_the_stylesheet
              (bare_instance false
                 (JsArray [to_js {| selector := "p";
                                    styles := [("color", "red")] |};
                           JsNull]))
              [to_js {| selector := "p"; styles := [("color", "red")] |};
               JsNull] eq_refl) as [_ Hfail].
  apply (Hfail JsNull
           (TypeError "Cannot read properties of null (reading 'styles')")).
  - right. left. reflexivity.
  - reflexivity.
Defined.











Lemma concat_cons_app (sep x y : string) (l1 l2 : list string) :
  String.concat sep ((x :: l1) ++ y :: l2)%list
  = String.concat sep (x :: l1) ++ sep ++ String.concat sep (y :: l2).
Proof.
  revert x. induction l1 as [| a l1 IH]; intro x.
  - reflexivity.
  - change (String.concat sep ((x :: a :: l1) ++ y :: l2)%list)
      with (x ++ sep ++ String.concat sep ((a :: l1) ++ y :: l2)%list).
    rewrite IH.
    change (String.concat sep (x :: a :: l1))
      with (x ++ sep ++ String.concat sep (a :: l1)).
    rewrite !append_assoc. reflexivity.
Qed.

(** X4.  Compiling keeps the order of the rules and composes: the text
    of two non-empty sequences of rules one after the other is the text
    of the first, an empty line, and the text of the second. *)
Theorem compile_of_appended_rules :
  forall (r1 r2 : StyleOverride) (rs1 rs2 : list StyleOverride)
         (c : Instance),
  exists t1 t2 : string,
    fst (generateStyleText (with_rules (r1 :: rs1) c)) = Normal t1
    /\ fst (generateStyleText (with_rules (r2 :: rs2) c)) = Normal t2
    /\ fst (generateStyleText
              (with_rules ((r1 :: rs1) ++ r2 :: rs2)%list c))
       = Normal (t1 ++ LF ++ LF ++ t2).
Proof.
  intros r1 r2 rs1 rs2 c. rewrite !generateStyleText_typed. cbn [fst].
  eexists. eexists. split; [reflexivity |]. split; [reflexivity |].
  rewrite map_app. cbn [map].
  rewrite concat_cons_app, (append_assoc LF LF). reflexivity.
Qed.

(** ** 10.2 The payload *)

Lemma append_inv_head (a x y : string) : a ++ x = a ++ y -> x = y.
Proof.
  induction a as [| c a IH]; cbn [append]; intro H; [exact H |].
  injection H as H. apply IH, H.
Qed.

Lemma append_length (a b : string) :
  String.length (a ++ b) = (String.length a + String.length b)%nat.
Proof.
  induction a as [| c a IH]; [reflexivity |].
  cbn [append String.length]. rewrite IH. reflexivity.
Qed.

Lemma append_inv_tail (b x y : string) : x ++ b = y ++ b -> x = y.
Proof.
  revert y. induction x as [| c x IH]; intros y H.
  - destruct y as [| d y]; [reflexivity |].
    apply (f_equal String.length) in H.
    cbn [append String.length] in H. rewrite append_length in H. lia.
  - destruct y as [| d y].
    + apply (f_equal String.length) in H.
      cbn [append String.length] in H. rewrite append_length in H. lia.
    + cbn [append] in H. injection H as -> H. rewrite (IH y H). reflexivity.
Qed.

Lemma assemble_injective (overrides : string) (markers : bool)
      (c1 c2 : string) :
  assemble overrides markers c1 = assemble overrides markers c2 -> c1 = c2.
Proof.
  unfold assemble. intro H.
  do 5 apply append_inv_head in H.
  apply append_inv_tail in H. exact H.
Qed.

Lemma assemble_contains_content (overrides : string) (markers : bool)
      (content : string) :
  contains content (assemble overrides markers content) = true.
Proof.
  unfold assemble.
  rewrite <- (append_assoc _ HTML_BEFORE_CONTENT),
    <- (append_assoc HTML_BEFORE_MARKERS),
    <- (append_assoc overrides),
    <- (append_assoc HTML_BEFORE_OVERRIDES).
  apply contains_intro.
Qed.

Lemma assemble_contains_overrides (overrides : string) (markers : bool)
      (content : string) :
  contains overrides (assemble overrides markers content) = true.
Proof. unfold assemble. apply contains_intro. Qed.

Lemma Normal_inj {A : Type} (a b : A) : Normal a = Normal b -> a = b.
Proof. intro H. injection H as H. exact H. Qed.

(** X5.  [generateFullHtml] always returns a payload, and building it
    leaves the props, the iframe, the store and the emitted events as
    they were.  The document text and the compiled overrides stand in
    the payload character for character, nothing escaped; and the
    payload determines the document text: two texts with the same
    payload are the same text. *)
Theorem payload_embeds_the_document_verbatim :
  forall (content : string) (c : Instance),
  exists (payload : string) (c' : Instance),
    generateFullHtml content c = (Normal payload, c')
    /\ props c' = props c
    /\ iframeRef c' = iframeRef c
    /\ styleOverrides c' = styleOverrides c
    /\ emitted c' = emitted c
    /\ contains content payload = true
    /\ (forall overrides c0,
          generateStyleText c = (Normal overrides, c0) ->
          contains overrides payload = true)
    /\ (forall other : string,
          fst (generateFullHtml other c) = Normal payload ->
          other = content).
Proof.
  intros content c. rewrite generateFullHtml_run.
  eexists. eexists. split; [reflexivity |].
  rewrite after_style_props, after_style_iframeRef,
    after_style_styleOverrides, after_style_emitted.
  repeat (split; [reflexivity |]).
  split; [apply assemble_contains_content |]. split.
  - intros overrides c0 H. rewrite generateStyleText_run in H.
    injection H as <- _. apply assemble_contains_overrides.
  - intros other H. rewrite generateFullHtml_run in H. cbn [fst] in H.
    apply Normal_inj in H. apply (assemble_injective _ _ _ _ H).
Qed.

Lemma payload_embeds_the_document_verbatim_witness :
  exists payload : string,
    fst (generateFullHtml "</body><script>x</script>"
           (bare_instance false one_rule)) = Normal payload
    /\ contains "</body><script>x</script>" payload = true
    /\ contains ("p {" ++ LF ++ "  color: red !important;" ++ LF ++ "}")
                payload = true.
Proof.
  destruct (payload_embeds_the_document_verbatim
              "</body><script>x</script>" (bare_instance false one_rule))
    as (payload & c' & Hrun & _ & _ & _ & _ & Hcontent & Hover & _).
  exists payload. split; [rewrite Hrun; reflexivity |].
  split; [exact Hcontent |].
  apply (Hover _ (bare_instance false one_rule)). reflexivity.
Defined.

(** X6.  A store the compiler fails on does not stop the rendering: the
    payload is the payload of an empty list of rules, and the failure is
    one line on the error console. *)
Theorem failed_styles_leave_the_base_payload :
  forall (content : string) (c : Instance) (e : JsError),
    StyleCompiler.try_body (styleOverrides c) = Throw e ->
    generateFullHtml content c
    = (Normal (assemble EmptyString (showModifiedMarkers (props c)) content),
       log_failure e c)
    /\ fst (generateFullHtml content c)
       = fst (generateFullHtml content (set_styleOverrides (JsArray []) c)).
Proof.
  intros content c e H. rewrite !generateFullHtml_run.
  unfold style_text, after_style. rewrite H.
  split; reflexivity.
Qed.

Lemma failed_styles_leave_the_base_payload_witness :
  fst (generateFullHtml marked_document (bare_instance true JsNull))
  = fst (generateFullHtml marked_document (bare_instance true (JsArray []))).
Proof.
  apply (failed_styles_leave_the_base_payload marked_document
           (bare_instance true JsNull)
           (TypeError "Cannot read properties of null (reading 'map')")).
  reflexivity.
Defined.

(** ** 10.3 The injected style element *)

Lemma index_of_id_found (name : string) (l : list Element) (i j : nat) :
  index_of_id name l i = Some j ->
  (i <= j)%nat
  /\ exists e, nth_error l (j - i) = Some e /\ id e = name.
Proof.
  revert i. induction l as [| a l IH]; intros i H; [discriminate H |].
  cbn [index_of_id] in H. destruct (String.eqb (id a) name) eqn:E.
  - injection H as <-. split; [lia |]. rewrite Nat.sub_diag.
    exists a. split; [reflexivity | apply String.eqb_eq, E].
  - destruct (IH (S i) H) as [Hle (e & He & Hid)]. split; [lia |].
    exists e. split; [| exact Hid].
    replace (j - i)%nat with (S (j - S i)) by lia. exact He.
Qed.

Lemma index_of_id_update (name : string) (f : Element -> Element)
      (l : list Element) (k i : nat) :
  (forall e, id (f e) = id e) ->
  index_of_id name (update_nth k f l) i = index_of_id name l i.
Proof.
  intro Hf. revert k i. induction l as [| a l IH]; intros k i.
  - destruct k; reflexivity.
  - destruct k as [| k]; cbn [update_nth index_of_id].
    + rewrite Hf. reflexivity.
    + rewrite IH. reflexivity.
Qed.

Lemma index_of_id_appended (name : string) (l : list Element) (e : Element)
      (i : nat) :
  index_of_id name l i = None ->
  id e = name ->
  index_of_id name (l ++ [e])%list i = Some (i + List.length l)%nat.
Proof.
  intros H He. revert i H. induction l as [| a l IH]; intros i H.
  - cbn [app index_of_id List.length]. rewrite He, String.eqb_refl.
    rewrite Nat.add_0_r. reflexivity.
  - cbn [app index_of_id List.length] in *.
    destruct (String.eqb (id a) name); [discriminate H |].
    rewrite (IH (S i) H). f_equal. lia.
Qed.

Lemma nth_error_update (f : Element -> Element) (l : list Element)
      (j : nat) :
  nth_error (update_nth j f l) j = option_map f (nth_error l j).
Proof.
  revert j. induction l as [| a l IH]; intro j.
  - destruct j; reflexivity.
  - destruct j as [| j]; cbn [update_nth nth_error]; [reflexivity | apply IH].
Qed.

Lemma update_nth_twice (f g : Element -> Element) (l : list Element)
      (j : nat) :
  update_nth j g (update_nth j f l) = update_nth j (fun e => g (f e)) l.
Proof.
  revert j. induction l as [| a l IH]; intro j.
  - destruct j; reflexivity.
  - destruct j as [| j]; cbn [update_nth]; [reflexivity |].
    rewrite IH. reflexivity.
Qed.

Lemma update_nth_length (f : Element -> Element) (l : list Element)
      (j : nat) :
  List.length (update_nth j f l) = List.length l.
Proof.
  revert j. induction l as [| a l IH]; intro j.
  - destruct j; reflexivity.
  - destruct j as [| j]; cbn [update_nth List.length]; [reflexivity |].
    rewrite IH. reflexivity.
Qed.

Lemma set_textContent_twice (r : ElementRef) (t1 t2 : string)
      (doc : Document) :
  set_textContent r t2 (set_textContent r t1 doc) = set_textContent r t2 doc.
Proof.
  destruct r as [i | i]; unfold set_textContent, set_head, set_body;
    cbn [head body documentElement_scrollTop body_scrollTop scroll_listeners];
    rewrite update_nth_twice; reflexivity.
Qed.

(** Where the text was written is where the next call looks. *)
Lemma styled_target (text : string) (doc : Document) :
  getElementById (styled text doc) STYLE_ELEMENT_ID
  = Some (fst (style_target doc))
  /\ exists e,
       element_at (fst (style_target doc)) (styled text doc) = Some e
       /\ id e = STYLE_ELEMENT_ID
       /\ textContent e = text.
Proof.
  unfold styled, style_target, getElementById.
  destruct (index_of_id STYLE_ELEMENT_ID (head doc) 0) as [i |] eqn:Eh.
  - cbn [fst snd set_textContent set_head head body element_at].
    rewrite index_of_id_update by reflexivity. rewrite Eh.
    split; [reflexivity |].
    destruct (index_of_id_found _ _ _ _ Eh) as [_ (e & He & Hid)].
    rewrite Nat.sub_0_r in He. rewrite nth_error_update, He.
    exists (with_text text e). repeat split; assumption || reflexivity.
  - destruct (index_of_id STYLE_ELEMENT_ID (body doc) 0) as [i |] eqn:Eb.
    + cbn [fst snd set_textContent set_body head body element_at].
      rewrite Eh. rewrite index_of_id_update by reflexivity. rewrite Eb.
      split; [reflexivity |].
      destruct (index_of_id_found _ _ _ _ Eb) as [_ (e & He & Hid)].
      rewrite Nat.sub_0_r in He. rewrite nth_error_update, He.
      exists (with_text text e). repeat split; assumption || reflexivity.
    + cbn [head_appendChild fst snd set_textContent set_head head body
             element_at].
      rewrite index_of_id_update by reflexivity.
      rewrite (index_of_id_appended STYLE_ELEMENT_ID (head doc)
                 {| tagName := "style"; id := STYLE_ELEMENT_ID;
                    textContent := EmptyString |} 0 Eh eq_refl).
      cbn [Nat.add].
      split; [reflexivity |].
      rewrite nth_error_update, nth_error_app2 by lia.
      rewrite Nat.sub_diag. cbn [nth_error option_map].
      eexists. repeat split; reflexivity.
Qed.

Lemma style_target_styled (text : string) (doc : Document) :
  style_target (styled text doc)
  = (fst (style_target doc), styled text doc).
Proof.
  destruct (styled_target text doc) as [H _].
  unfold style_target at 1. rewrite H. reflexivity.
Qed.

(** A later text replaces an earlier one. *)
Lemma styled_twice (t1 t2 : string) (doc : Document) :
  styled t2 (styled t1 doc) = styled t2 doc.
Proof.
  unfold styled at 1. rewrite style_target_styled. cbn [fst snd].
  unfold styled. apply set_textContent_twice.
Qed.

Lemma styled_frame (text : string) (doc : Document) :
  documentElement_scrollTop (styled text doc) = documentElement_scrollTop doc
  /\ body_scrollTop (styled text doc) = body_scrollTop doc
  /\ scroll_listeners (styled text doc) = scroll_listeners doc
  /\ List.length (body (styled text doc)) = List.length (body doc)
  /\ (List.length (head (styled text doc))
      = List.length (head doc)
        + match getElementById doc STYLE_ELEMENT_ID with
          | Some _ => 0
          | None => 1
          end)%nat.
Proof.
  unfold styled, style_target.
  destruct (getElementById doc STYLE_ELEMENT_ID) as [[i | i] |];
    cbn [fst snd set_textContent set_head set_body head_appendChild head body
           documentElement_scrollTop body_scrollTop scroll_listeners];
    rewrite ?update_nth_length, ?length_app; cbn [List.length];
    repeat split; lia.
Qed.

Lemma updateIframeStyles_styled (c : Instance) (doc : Document) :
  contentDocument_opt c = Some doc ->
  updateIframeStyles c
  = (Normal tt, put_document (styled (style_text c) doc) (after_style c)).
Proof. intro H. apply (updateIframeStyles_run c doc H). Qed.

Lemma style_text_after_style (c : Instance) :
  style_text (after_style c) = style_text c.
Proof. unfold style_text. rewrite after_style_styleOverrides. reflexivity. Qed.

(** X7.  With a document behind the iframe, [updateIframeStyles] leaves
    an element with the id [preview-style-overrides] that
    [getElementById] finds and whose text is the text
    [generateStyleText] returns.  It appends one element to the head
    when the document had none with that id and none otherwise, and the
    body keeps its number of elements. *)
Theorem updateIframeStyles_injects_the_compiled_text :
  forall (c : Instance) (doc : Document),
    contentDocument_opt c = Some doc ->
    exists (c' : Instance) (doc' : Document) (r : ElementRef) (e : Element),
      updateIframeStyles c = (Normal tt, c')
      /\ contentDocument_opt c' = Some doc'
      /\ getElementById doc' STYLE_ELEMENT_ID = Some r
      /\ element_at r doc' = Some e
      /\ fst (generateStyleText c) = Normal (textContent e)
      /\ (List.length (head doc')
          = List.length (head doc)
            + match getElementById doc STYLE_ELEMENT_ID with
              | Some _ => 0
              | None => 1
              end)%nat
      /\ List.length (body doc') = List.length (body doc).
Proof.
  intros c doc H. rewrite (updateIframeStyles_styled c doc H).
  destruct (styled_target (style_text c) doc) as [Hget (e & He & _ & Ht)].
  destruct (styled_frame (style_text c) doc) as (_ & _ & _ & Hb & Hh).
  exists (put_document (styled (style_text c) doc) (after_style c)),
    (styled (style_text c) doc), (fst (style_target doc)), e.
  split; [reflexivity |].
  split; [apply (put_document_get _ doc);
          rewrite after_style_document; exact H |].
  split; [exact Hget |]. split; [exact He |].
  split; [rewrite generateStyleText_run, Ht; reflexivity |].
  split; [exact Hh | exact Hb].
Qed.

Lemma updateIframeStyles_injects_the_compiled_text_witness :
  exists (c' : Instance) (doc' : Document) (e : Element),
    updateIframeStyles
      (set_styleOverrides one_rule
         (sample_instance (Some (sample_document 30 0))))
    = (Normal tt, c')
    /\ contentDocument_opt c' = Some doc'
    /\ element_at (InHead 0) doc' = Some e
    /\ textContent e
       = "p {" ++ LF ++ "  color: red !important;" ++ LF ++ "}".
Proof.
  destruct (updateIframeStyles_injects_the_compiled_text
              (set_styleOverrides one_rule
                 (sample_instance (Some (sample_document 30 0))))
              (sample_document 30 0) eq_refl)
    as (c' & doc' & r & e & Hrun & Hdoc & Hget & He & Ht & _).
  exists c', doc', e. split; [exact Hrun |]. split; [exact Hdoc |].
  assert (Hc : c' = snd (updateIframeStyles
                           (set_styleOverrides one_rule
                              (sample_instance
                                 (Some (sample_document 30 0))))))
    by (rewrite Hrun; reflexivity).
  assert (Hd : doc' = styled ("p {" ++ LF ++ "  color: red !important;"
                                    ++ LF ++ "}") (sample_document 30 0)).
  { rewrite Hc in Hdoc. vm_compute in Hdoc. injection Hdoc as <-.
    vm_compute. reflexivity. }
  assert (Hr : r = InHead 0).
  { rewrite Hd in Hget. vm_compute in Hget. injection Hget as <-.
    reflexivity. }
  rewrite Hr in He. split; [exact He |].
  apply Normal_inj. rewrite <- Ht. vm_compute. reflexivity.
Defined.

Lemma updateIframeStyles_document (c : Instance) (doc : Document) :
  contentDocument_opt c = Some doc ->
  contentDocument_opt (snd (updateIframeStyles c))
  = Some (styled (style_text c) doc).
Proof.
  intro H. rewrite (updateIframeStyles_styled c doc H). cbn [snd].
  apply (put_document_get _ doc). rewrite after_style_document. exact H.
Qed.

Lemma style_text_set_styleOverrides (v : JsValue) (c1 c2 : Instance) :
  style_text (set_styleOverrides v c1) = style_text (set_styleOverrides v c2).
Proof. reflexivity. Qed.

(** X8.  The injected text is overwritten, never added to: after an
    update, a change of the store to any value and a second update
    leave the document the second update alone would have left.  With
    the store unchanged the second update changes nothing in the
    document. *)
Theorem updateIframeStyles_overwrites :
  forall (c : Instance) (doc : Document) (v : JsValue),
    contentDocument_opt c = Some doc ->
    contentDocument_opt
      (snd (updateIframeStyles
              (set_styleOverrides v (snd (updateIframeStyles c)))))
    = contentDocument_opt
        (snd (updateIframeStyles (set_styleOverrides v c)))
    /\ contentDocument_opt
         (snd (updateIframeStyles (snd (updateIframeStyles c))))
       = contentDocument_opt (snd (updateIframeStyles c)).
Proof.
  intros c doc v H.
  pose proof (updateIframeStyles_document c doc H) as H1.
  split.
  - rewrite (updateIframeStyles_document
               (set_styleOverrides v (snd (updateIframeStyles c)))
               (styled (style_text c) doc) H1).
    rewrite (updateIframeStyles_document (set_styleOverrides v c) doc H).
    rewrite styled_twice.
    rewrite (style_text_set_styleOverrides v _ c). reflexivity.
  - rewrite (updateIframeStyles_document (snd (updateIframeStyles c))
               (styled (style_text c) doc) H1).
    rewrite H1, styled_twice. f_equal. f_equal.
    rewrite (updateIframeStyles_styled c doc H). cbn [snd].
    rewrite style_text_put_document. apply style_text_after_style.
Qed.

Lemma updateIframeStyles_overwrites_witness :
  contentDocument_opt
    (snd (updateIframeStyles
            (set_styleOverrides (JsArray [])
               (snd (updateIframeStyles
                       (set_styleOverrides one_rule loaded_instance))))))
  = contentDocument_opt
      (snd (updateIframeStyles
              (set_styleOverrides (JsArray [])
                 (set_styleOverrides one_rule loaded_instance)))).
Proof.
  destruct (updateIframeStyles_overwrites
              (set_styleOverrides one_rule loaded_instance)
              {| documentElement_scrollTop := 250;
                 body_scrollTop := 0;
                 head := [{| tagName := "style"; id := STYLE_ELEMENT_ID;
                             textContent := EmptyString |}];
                 body := [];
                 scroll_listeners := [ReportScroll] |}
              (JsArray []) eq_refl) as [H _].
  exact H.
Defined.

(** X9.  The element is looked up in the whole document.  When the head
    has no element with the id and the rendered markup has one in the
    body, [updateIframeStyles] appends no style element: it replaces the
    text of that body element, which keeps its tag. *)
Theorem updateIframeStyles_takes_a_body_element_with_the_id :
  forall (c : Instance) (doc : Document) (i : nat),
    contentDocument_opt c = Some doc ->
    getElementById doc STYLE_ELEMENT_ID = Some (InBody i) ->
    exists (doc' : Document) (e e' : Element),
      contentDocument_opt (snd (updateIframeStyles c)) = Some doc'
      /\ head doc' = head doc
      /\ nth_error (body doc) i = Some e
      /\ nth_error (body doc') i = Some e'
      /\ tagName e' = tagName e
      /\ fst (generateStyleText c) = Normal (textContent e').
Proof.
  intros c doc i H Hget.
  rewrite (updateIframeStyles_document c doc H).
  assert (Hb : index_of_id STYLE_ELEMENT_ID (body doc) 0 = Some i).
  { unfold getElementById in Hget.
    destruct (index_of_id STYLE_ELEMENT_ID (head doc) 0); [discriminate |].
    destruct (index_of_id STYLE_ELEMENT_ID (body doc) 0) as [j |];
      [| discriminate].
    injection Hget as ->. reflexivity. }
  destruct (index_of_id_found _ _ _ _ Hb) as [_ (e & He & _)].
  rewrite Nat.sub_0_r in He.
  exists (styled (style_text c) doc), e, (with_text (style_text c) e).
  split; [reflexivity |].
  unfold styled, style_target. rewrite Hget.
  cbn [fst snd set_textContent set_body head body].
  split; [reflexivity |]. split; [exact He |].
  split; [rewrite nth_error_update, He; reflexivity |].
  split; [reflexivity |].
  rewrite generateStyleText_run. reflexivity.
Qed.

Lemma updateIframeStyles_takes_a_body_element_with_the_id_witness :
  exists (doc' : Document) (e' : Element),
    contentDocument_opt
      (snd (updateIframeStyles
              (set_styleOverrides one_rule
                 (sample_instance
                    (Some {| documentElement_scrollTop := 0;
                             body_scrollTop := 0;
                             head := [];
                             body := [{| tagName := "div";
                                         id := STYLE_ELEMENT_ID;
                                         textContent := "notes" |}];
                             scroll_listeners := [] |}))))) = Some doc'
    /\ head doc' = []
    /\ nth_error (body doc') 0 = Some e'
    /\ tagName e' = "div".
Proof.
  destruct (updateIframeStyles_takes_a_body_element_with_the_id
              (set_styleOverrides one_rule
                 (sample_instance
                    (Some {| documentElement_scrollTop := 0;
                             body_scrollTop := 0;
                             head := [];
                             body := [{| tagName := "div";
                                         id := STYLE_ELEMENT_ID;
                                         textContent := "notes" |}];
                             scroll_listeners := [] |})))
              {| documentElement_scrollTop := 0;
                 body_scrollTop := 0;
                 head := [];
                 body := [{| tagName := "div"; id := STYLE_ELEMENT_ID;
                             textContent := "notes" |}];
                 scroll_listeners := [] |} 0%nat eq_refl eq_refl)
    as (doc' & e & e' & Hdoc & Hhead & He & He' & Htag & _).
  exists doc', e'. split; [exact Hdoc |]. split; [exact Hhead |].
  split; [exact He' |]. rewrite Htag.
  cbn in He. injection He as <-. reflexivity.
Defined.

(** ** 10.4 The load of the iframe *)

Lemma handleLoad_idle (c : Instance) :
  contentDocument_opt c = None -> handleLoad c = (Normal tt, c).
Proof.
  intro H. unfold handleLoad, bind, get. rewrite H. reflexivity.
Qed.

Lemma handleLoad_run (c : Instance) (doc : Document) :
  contentDocument_opt c = Some doc ->
  handleLoad c
  = (Normal tt,
     put_document
       (loaded_document (style_text c) (scrollTop (props c)) doc)
       (set_emitted (emitted c ++ [EmitLoad])%list
          (put_document (styled (style_text c) doc) (after_style c)))).
Proof.
  intro H. unfold handleLoad, bind at 1, get. rewrite H.
  unfold bind at 1. rewrite (updateIframeStyles_styled c doc H).
  unfold bind at 1, emit.
  set (c1 := put_document (styled (style_text c) doc) (after_style c)).
  assert (H1 : contentDocument_opt c1 = Some (styled (style_text c) doc)).
  { apply (put_document_get _ doc). rewrite after_style_document. exact H. }
  assert (He : emitted c1 = emitted c).
  { unfold c1. rewrite put_document_emitted. apply after_style_emitted. }
  assert (Hp : props c1 = props c).
  { unfold c1. rewrite put_document_props. apply after_style_props. }
  rewrite He.
  set (c2 := set_emitted (emitted c ++ [EmitLoad])%list c1).
  assert (H2 : contentDocument_opt c2 = Some (styled (style_text c) doc))
    by exact H1.
  unfold bind at 1. rewrite (modify_document_run _ c2 _ H2).
  unfold bind at 1, get.
  rewrite put_document_props.
  change (props c2) with (props c1). rewrite Hp.
  unfold loaded_document.
  destruct (scrollTop (props c)) as [v |]; [| reflexivity].
  unfold bind.
  rewrite (modify_document_run _ _ _ (put_document_get c2 _ _ H2)).
  rewrite (modify_document_run _ _ _
             (put_document_get _ _ _ (put_document_get c2 _ _ H2))).
  rewrite !put_document_twice. reflexivity.
Qed.

(** X10.  [handleLoad] does nothing without a document.  With one it
    emits [load] once and nothing else, registers one more scroll
    listener, leaves the compiled styles in the element with the id
    [preview-style-overrides], and writes an initial [props.scrollTop]
    to both offsets whatever the offsets were (there is no dead zone at
    load); without an initial position the offsets stay. *)
Theorem handleLoad_prepares_the_document :
  forall c : Instance,
    (contentDocument_opt c = None -> handleLoad c = (Normal tt, c))
    /\ (forall doc : Document,
          contentDocument_opt c = Some doc ->
          exists (c' : Instance) (doc' : Document) (r : ElementRef)
                 (e : Element),
            handleLoad c = (Normal tt, c')
            /\ contentDocument_opt c' = Some doc'
            /\ emitted c' = (emitted c ++ [EmitLoad])%list
            /\ props c' = props c
            /\ scroll_listeners doc'
               = (scroll_listeners doc ++ [ReportScroll])%list
            /\ getElementById doc' STYLE_ELEMENT_ID = Some r
            /\ element_at r doc' = Some e
            /\ fst (generateStyleText c) = Normal (textContent e)
            /\ (forall v, scrollTop (props c) = Some v ->
                          documentElement_scrollTop doc' = v
                          /\ body_scrollTop doc' = v)
            /\ (scrollTop (props c) = None ->
                documentElement_scrollTop doc'
                = documentElement_scrollTop doc
                /\ body_scrollTop doc' = body_scrollTop doc)).
Proof.
  intro c. split; [apply handleLoad_idle |].
  intros doc H. rewrite (handleLoad_run c doc H).
  destruct (styled_target (style_text c) doc) as [Hget (e & He & _ & Ht)].
  destruct (styled_frame (style_text c) doc) as (Htop & Hbody & Hls & _).
  eexists. exists (loaded_document (style_text c) (scrollTop (props c)) doc),
    (fst (style_target doc)), e.
  split; [reflexivity |].
  split.
  { apply (put_document_get _ (styled (style_text c) doc)).
    apply (put_document_get _ doc).
    rewrite after_style_document. exact H. }
  split; [rewrite put_document_emitted; reflexivity |].
  split.
  { rewrite put_document_props. cbn [props set_emitted].
    rewrite put_document_props. apply after_style_props. }
  unfold loaded_document.
  destruct (scrollTop (props c)) as [v |].
  - cbn [scrolled_to set_body_scrollTop set_documentElement_scrollTop
           addEventListener_scroll scroll_listeners getElementById head body
           element_at documentElement_scrollTop body_scrollTop].
    fold (getElementById (styled (style_text c) doc) STYLE_ELEMENT_ID).
    rewrite Hls. split; [reflexivity |].
    split; [exact Hget |].
    split.
    { destruct (fst (style_target doc)); exact He. }
    split; [rewrite generateStyleText_run, Ht; reflexivity |].
    split.
    + intros w Hw. injection Hw as <-. split; reflexivity.
    + discriminate.
  - cbn [addEventListener_scroll scroll_listeners getElementById head body
           element_at documentElement_scrollTop body_scrollTop].
    fold (getElementById (styled (style_text c) doc) STYLE_ELEMENT_ID).
    rewrite Hls. split; [reflexivity |].
    split; [exact Hget |].
    split.
    { destruct (fst (style_target doc)); exact He. }
    split; [rewrite generateStyleText_run, Ht; reflexivity |].
    split.
    + discriminate.
    + intros _. split; assumption.
Qed.

Lemma handleLoad_prepares_the_document_witness :
  exists (c' : Instance) (doc' : Document),
    handleLoad
      (set_props {| htmlContent := marked_document; scrollTop := Some 101;
                    showModifiedMarkers := false |}
         (sample_instance (Some (sample_document 100 0))))
    = (Normal tt, c')
    /\ contentDocument_opt c' = Some doc'
    /\ documentElement_scrollTop doc' = 101
    /\ body_scrollTop doc' = 101.
Proof.
  destruct (handleLoad_prepares_the_document
              (set_props {| htmlContent := marked_document;
                            scrollTop := Some 101;
                            showModifiedMarkers := false |}
                 (sample_instance (Some (sample_document 100 0)))))
    as [_ Hload].
  destruct (Hload (sample_document 100 0) eq_refl)
    as (c' & doc' & r & e & Hrun & Hdoc & _ & _ & _ & _ & _ & _ & Hv & _).
  exists c', doc'. split; [exact Hrun |]. split; [exact Hdoc |].
  apply (Hv 101). reflexivity.
Defined.

Lemma loaded_document_listeners (text : string) (initial : option Z)
      (doc : Document) :
  scroll_listeners (loaded_document text initial doc)
  = (scroll_listeners doc ++ [ReportScroll])%list.
Proof.
  destruct (styled_frame text doc) as (_ & _ & Hls & _).
  unfold loaded_document. destruct initial; cbn; rewrite Hls; reflexivity.
Qed.

Lemma handleLoad_document (c : Instance) (doc : Document) :
  contentDocument_opt c = Some doc ->
  contentDocument_opt (snd (handleLoad c))
  = Some (loaded_document (style_text c) (scrollTop (props c)) doc).
Proof.
  intro H. rewrite (handleLoad_run c doc H). cbn [snd].
  apply (put_document_get _ (styled (style_text c) doc)).
  apply (put_document_get _ doc).
  rewrite after_style_document. exact H.
Qed.

(** X11.  After [handleLoad] with an initial position [v], a position
    within 2 units of [v] sent to the watcher changes nothing.  And a
    scroll event of the loaded document is reported once for every
    listener registered: once on a document that had no listener, once
    more for each load the document went through before. *)
Theorem loaded_surface_reports_once_per_listener :
  forall (c : Instance) (doc : Document),
    contentDocument_opt c = Some doc ->
    (forall v w : Z,
        scrollTop (props c) = Some v ->
        Z.abs (w - v) <= 2 ->
        watch_scrollTop (Some w) (snd (handleLoad c))
        = (Normal tt, snd (handleLoad c)))
    /\ exists doc' : Document,
         contentDocument_opt (snd (handleLoad c)) = Some doc'
         /\ emitted (dispatch_scroll (snd (handleLoad c)))
            = (emitted c
                 ++ EmitLoad
                 :: map (fun _ => EmitScroll (currentScroll doc'))
                        (scroll_listeners doc ++ [ReportScroll]))%list.
Proof.
  intros c doc H.
  pose proof (handleLoad_document c doc H) as Hd.
  split.
  - intros v w Hv Hw.
    rewrite (watch_scrollTop_run _ _ w Hd), Hv.
    unfold loaded_document. rewrite currentScroll_scrolled_to.
    replace (Z.abs (v - w) >? 2) with false; [reflexivity |].
    symmetry. rewrite Z.gtb_ltb. apply Z.ltb_ge. lia.
  - exists (loaded_document (style_text c) (scrollTop (props c)) doc).
    split; [exact Hd |].
    unfold dispatch_scroll. rewrite Hd.
    rewrite (run_listeners_run _ _ _ Hd). cbn [emitted set_emitted].
    rewrite loaded_document_listeners.
    rewrite (handleLoad_run c doc H). cbn [snd].
    rewrite put_document_emitted. cbn [emitted set_emitted].
    rewrite <- app_assoc. reflexivity.
Qed.

Lemma loaded_surface_reports_once_per_listener_witness :
  emitted
    (dispatch_scroll
       (snd (handleLoad
               (sample_instance
                  (Some {| documentElement_scrollTop := 40;
                           body_scrollTop := 0;
                           head := [];
                           body := [];
                           scroll_listeners := [] |})))))
  = [EmitLoad; EmitScroll 40].
Proof.
  destruct (loaded_surface_reports_once_per_listener
              (sample_instance
                 (Some {| documentElement_scrollTop := 40;
                          body_scrollTop := 0;
                          head := [];
                          body := [];
                          scroll_listeners := [] |}))
              {| documentElement_scrollTop := 40;
                 body_scrollTop := 0;
                 head := [];
                 body := [];
                 scroll_listeners := [] |} eq_refl)
    as [_ (doc' & Hd & He)].
  rewrite He. vm_compute in Hd. injection Hd as <-. reflexivity.
Defined.

(** ** 10.5 The watcher of the scroll position *)




(** ** 10.6 The stack and the payloads of its children *)

(** X13.  While the sandbox is active, the child the stack renders for
    it gets [show-modified-markers]: whatever instance receives the
    bound props, the payload it computes holds the marker block and the
    sandbox document.  The props bound for the preview never ask for the
    markers. *)
Theorem sandbox_child_renders_the_markers :
  forall (st : State) (c : Instance),
    isSandboxActive st = true ->
    (exists (p : Props) (payload : string),
        bound_props st Sandbox = Some p
        /\ fst (srcdoc (receive_props p c)) = Normal payload
        /\ contains MODIFIED_MARKER_STYLES payload = true
        /\ contains (sandboxContent st) payload = true)
    /\ (exists p : Props,
          bound_props st Preview = Some p
          /\ showModifiedMarkers p = false
          /\ htmlContent p = editorContent st).
Proof.
  intros st c Hact. split.
  - cbn [bound_props]. rewrite Hact.
    eexists. eexists. split; [reflexivity |].
    rewrite srcdoc_run. cbn [fst]. split; [reflexivity |].
    unfold payload_of. rewrite receive_props_props.
    cbn [showModifiedMarkers htmlContent].
    split; [apply assemble_with_markers | apply assemble_contains_content].
  - eexists. split; [reflexivity |]. split; reflexivity.
Qed.

Lemma sandbox_child_renders_the_markers_witness :
  exists (p : Props) (payload : string),
    bound_props (setup "<p>a</p>" "<p>b</p>" true) Sandbox = Some p
    /\ fst (srcdoc (receive_props p (loaded_surface "<p>old</p>" false)))
       = Normal payload
    /\ contains MODIFIED_MARKER_STYLES payload = true
    /\ contains "<p>b</p>" payload = true.
Proof.
  destruct (sandbox_child_renders_the_markers
              (setup "<p>a</p>" "<p>b</p>" true)
              (loaded_surface "<p>old</p>" false) eq_refl)
    as [(p & payload & Hp & Hrun & Hm & Hc) _].
  exists p, payload. repeat split; assumption.
Defined.

Lemma put_document_console (c : Instance) (doc : Document) :
  console (put_document doc c) = console c.
Proof. unfold put_document. destruct (iframeRef c); reflexivity. Qed.

Lemma put_document_styleOverrides (c : Instance) (doc : Document) :
  styleOverrides (put_document doc c) = styleOverrides c.
Proof. unfold put_document. destruct (iframeRef c); reflexivity. Qed.

Lemma put_document_attribute (c : Instance) (doc : Document) :
  srcdoc_attribute_opt (put_document doc c) = srcdoc_attribute_opt c.
Proof.
  unfold srcdoc_attribute_opt, put_document.
  destruct (iframeRef c) as [f |] eqn:E; cbn [iframeRef set_iframeRef].
  - reflexivity.
  - rewrite E. reflexivity.
Qed.

Lemma after_watcher_frame (p : Props) (c : Instance) :
  console (after_watcher p c) = console c
  /\ styleOverrides (after_watcher p c) = styleOverrides c
  /\ srcdoc_attribute_opt (after_watcher p c) = srcdoc_attribute_opt c.
Proof.
  unfold after_watcher.
  destruct (same_number (scrollTop (props c)) (scrollTop p));
    [repeat split; reflexivity |].
  unfold watched. rewrite set_props_document.
  destruct (contentDocument_opt c) as [doc |];
    [| repeat split; reflexivity].
  destruct (scrollTop p) as [v |]; [| repeat split; reflexivity].
  destruct (Z.abs (currentScroll doc - v) >? 2);
    [| repeat split; reflexivity].
  rewrite put_document_console, put_document_styleOverrides,
    put_document_attribute.
  repeat split; reflexivity.
Qed.

(** X14.  Scroll synchronisation never reloads an iframe.  After a
    report of any position, a child that showed the props bound to it is
    still mounted, with the payload attribute of its iframe, its
    computed payload, its store and its console as they were; only its
    [scrollTop] prop and, outside the dead zone, its scroll offsets have
    changed. *)
Theorem scrolling_keeps_every_payload :
  forall (sys : System) (v : Z) (x : Surface) (c : Instance),
    surfaces sys x = Some c ->
    bound_props (stack sys) x = Some (props c) ->
    exists c' : Instance,
      surfaces (flush (report v sys)) x = Some c'
      /\ srcdoc_attribute_opt c' = srcdoc_attribute_opt c
      /\ fst (srcdoc c') = fst (srcdoc c)
      /\ styleOverrides c' = styleOverrides c
      /\ console c' = console c
      /\ htmlContent (props c') = htmlContent (props c)
      /\ showModifiedMarkers (props c') = showModifiedMarkers (props c)
      /\ scrollTop (props c') = Some v.
Proof.
  intros sys v x c Hc Hp.
  cbn [flush report stack surfaces]. unfold rendered.
  cbn [report stack surfaces].
  rewrite Hc, bound_props_handleScroll, Hp.
  eexists. split; [reflexivity |].
  rewrite receive_props_run. cbn [htmlContent showModifiedMarkers].
  rewrite String.eqb_refl, Bool.eqb_reflx. cbn [andb].
  destruct (after_watcher_frame
              {| htmlContent := htmlContent (props c);
                 scrollTop := Some v;
                 showModifiedMarkers := showModifiedMarkers (props c) |} c)
    as (Hk & Hs & Ha).
  split; [exact Ha |].
  split.
  { rewrite !srcdoc_run. cbn [fst]. unfold payload_of, style_text.
    rewrite Hs, after_watcher_props. reflexivity. }
  split; [exact Hs |]. split; [exact Hk |].
  rewrite after_watcher_props. repeat split; reflexivity.
Qed.

Lemma scrolling_keeps_every_payload_witness :
  exists c' : Instance,
    surfaces (flush (report 300 sample_system)) Sandbox = Some c'
    /\ srcdoc_attribute_opt c'
       = srcdoc_attribute_opt (loaded_surface "<p>b</p>" true)
    /\ option_map currentScroll (contentDocument_opt c') = Some 300.
Proof.
  destruct (scrolling_keeps_every_payload sample_system 300 Sandbox
              (loaded_surface "<p>b</p>" true) eq_refl eq_refl)
    as (c' & Hs & Ha & _).
  exists c'. split; [exact Hs |]. split; [exact Ha |].
  vm_compute in Hs. injection Hs as <-. reflexivity.
Defined.

(** ** 10.7 A scroll inside the dead zone of the other surface *)

Lemma receive_props_near (p : Props) (c : Instance) (v : Z) :
  scrollTop p = Some v ->
  (forall doc, contentDocument_opt c = Some doc ->
               Z.abs (currentScroll doc - v) <= 2) ->
  contentDocument_opt (receive_props p c) = contentDocument_opt c
  /\ scroll_moved c (receive_props p c) = false.
Proof.
  intros Hv Hnear.
  assert (Hd : contentDocument_opt (receive_props p c)
               = contentDocument_opt c).
  { rewrite receive_props_document.
    pose proof (after_watcher_cases p c v Hv) as Hc.
    destruct (contentDocument_opt c) as [doc |]; [| exact Hc].
    replace (Z.abs (currentScroll doc - v) >? 2) with false in Hc.
    - rewrite andb_false_r in Hc. exact Hc.
    - symmetry. rewrite Z.gtb_ltb. apply Z.ltb_ge, Hnear. reflexivity. }
  split; [exact Hd |].
  unfold scroll_moved. rewrite Hd.
  destruct (contentDocument_opt c); [| reflexivity].
  rewrite same_scroll_refl. reflexivity.
Qed.

(** The turn of the event loop that follows a scroll by the user. *)
Lemma first_turn (sys : System) (x : Surface) (c : Instance)
      (doc : Document) (offset : Z) :
  pending sys = [] ->
  surfaces sys x = Some c ->
  contentDocument_opt c = Some doc ->
  scroll_listeners doc <> [] ->
  documentElement_scrollTop doc <> offset ->
  exists (T : System) (c2 : Instance),
    step (user_scroll x offset sys) = flush T
    /\ stack T
       = handleScroll (or_number offset (body_scrollTop doc)) (stack sys)
    /\ pending T = []
    /\ (forall z, surfaces T z = if surface_eqb z x then Some c2
                                 else surfaces sys z)
    /\ contentDocument_opt c2
       = Some (set_documentElement_scrollTop offset doc)
    /\ props c2 = props c
    /\ emitted c2
       = (emitted c
            ++ map (fun _ => EmitScroll
                               (or_number offset (body_scrollTop doc)))
                   (scroll_listeners doc))%list.
Proof.
  intros Hpend Hc Hd Hls Hoff.
  set (doc1 := set_documentElement_scrollTop offset doc).
  set (v := or_number offset (body_scrollTop doc)).
  set (c1 := put_document doc1 c).
  assert (Hd1 : contentDocument_opt c1 = Some doc1)
    by exact (put_document_get c doc doc1 Hd).
  assert (Hv : currentScroll doc1 = v) by reflexivity.
  assert (Hsys1 : user_scroll x offset sys
                  = set_pending [x] (set_surface x c1 sys)).
  { unfold user_scroll. rewrite Hc.
    rewrite (modify_document_run _ c doc Hd). cbn [snd]. fold doc1. fold c1.
    rewrite Hpend. cbn [app moved_surface]. unfold scroll_moved.
    rewrite Hd, Hd1. unfold same_scroll. cbn.
    destruct (documentElement_scrollTop doc =? offset) eqn:E.
    - apply Z.eqb_eq in E. contradiction.
    - reflexivity. }
  exists (fold_left (fun s w => report w s) (reports_of c1)
            (set_surface x (dispatch_scroll c1)
               (set_pending [] (set_pending [x] (set_surface x c1 sys))))),
    (dispatch_scroll c1).
  split.
  { rewrite Hsys1. unfold step.
    cbn [set_pending set_surface pending surfaces].
    rewrite surface_eqb_refl, dispatch_scroll_reports. reflexivity. }
  split.
  { unfold reports_of. rewrite Hd1, fold_report_stack, Hv.
    replace (scroll_listeners doc1) with (scroll_listeners doc)
      by reflexivity.
    destruct (scroll_listeners doc); [contradiction | reflexivity]. }
  split; [rewrite fold_report_pending; reflexivity |].
  split.
  { intro z. rewrite fold_report_surfaces.
    cbn [set_pending set_surface surfaces].
    destruct (surface_eqb z x); reflexivity. }
  split; [rewrite dispatch_scroll_document; exact Hd1 |].
  split; [rewrite dispatch_scroll_props; apply put_document_props |].
  unfold dispatch_scroll. rewrite Hd1, (run_listeners_run _ c1 doc1 Hd1).
  cbn [emitted set_emitted]. unfold c1. rewrite put_document_emitted, Hv.
  reflexivity.
Qed.

(** X15.  A scroll by the user that stays within 2 units of where the
    other documents stand is reported and shared but moves no other
    document: after the one turn that handles the report nothing is
    waiting, the stack is in sync on the reported position, and every
    other child has its document and its emitted events as before. *)
Theorem small_scroll_is_not_propagated :
  forall (sys : System) (x : Surface) (c : Instance) (doc : Document)
         (offset : Z),
    in_sync sys ->
    surfaces sys x = Some c ->
    contentDocument_opt c = Some doc ->
    scroll_listeners doc <> [] ->
    documentElement_scrollTop doc <> offset ->
    (forall y cy dy,
        surface_eqb y x = false ->
        surfaces sys y = Some cy ->
        contentDocument_opt cy = Some dy ->
        Z.abs (currentScroll dy - or_number offset (body_scrollTop doc))
        <= 2) ->
    in_sync (run 1 (user_scroll x offset sys))
    /\ sharedScrollTop (stack (run 1 (user_scroll x offset sys)))
       = or_number offset (body_scrollTop doc)
    /\ forall y cy,
         surface_eqb y x = false ->
         surfaces sys y = Some cy ->
         exists cy',
           surfaces (run 1 (user_scroll x offset sys)) y = Some cy'
           /\ contentDocument_opt cy' = contentDocument_opt cy
           /\ emitted cy' = emitted cy.
Proof.
  intros sys x c doc offset [Hpend Hall] Hc Hd Hls Hoff Hnear.
  destruct (first_turn sys x c doc offset Hpend Hc Hd Hls Hoff)
    as (T & c2 & Hstep & HstT & HpT & HsT & Hd2 & Hp2 & _).
  set (v := or_number offset (body_scrollTop doc)) in *.
  cbn [run]. rewrite Hstep.
  assert (Hbound : forall z cz,
             surfaces T z = Some cz ->
             bound_props (stack sys) z = Some (props cz)).
  { intros z cz Hz. rewrite HsT in Hz.
    destruct (surface_eqb z x) eqn:E.
    - apply surface_eqb_eq in E. subst z. injection Hz as <-.
      rewrite Hp2. apply (Hall x c Hc).
    - apply (Hall z cz Hz). }
  assert (HnearT : forall z cz dz,
             surfaces T z = Some cz ->
             contentDocument_opt cz = Some dz ->
             Z.abs (currentScroll dz - v) <= 2).
  { intros z cz dz Hz Hdz. rewrite HsT in Hz.
    destruct (surface_eqb z x) eqn:E.
    - injection Hz as <-. rewrite Hd2 in Hdz. injection Hdz as <-.
      change (currentScroll (set_documentElement_scrollTop offset doc))
        with v.
      rewrite Z.sub_diag. cbn. lia.
    - apply (Hnear z cz dz E Hz Hdz). }
  assert (Hrender : forall z cz,
             surfaces T z = Some cz ->
             exists p,
               bound_props (handleScroll v (stack sys)) z = Some p
               /\ rendered T z = Some (receive_props p cz)
               /\ contentDocument_opt (receive_props p cz)
                  = contentDocument_opt cz
               /\ scroll_moved cz (receive_props p cz) = false).
  { intros z cz Hz. unfold rendered. rewrite Hz, HstT.
    destruct (bound_props (handleScroll v (stack sys)) z) as [p |] eqn:Ep.
    - exists p. split; [reflexivity |]. split; [reflexivity |].
      apply (receive_props_near p cz v).
      + apply (bound_props_scrollTop _ _ _ Ep).
      + intros dz Hdz. apply (HnearT z cz dz Hz Hdz).
    - rewrite bound_props_handleScroll, (Hbound z cz Hz) in Ep.
      discriminate Ep. }
  assert (Hmoved : forall z,
             moved_surface z (surfaces T z) (rendered T z) = []).
  { intro z. destruct (surfaces T z) as [cz |] eqn:Ez; [| reflexivity].
    destruct (Hrender z cz Ez) as (p & _ & Hr & _ & Hm).
    rewrite Hr. cbn [moved_surface]. rewrite Hm. reflexivity. }
  split; [split |].
  - cbn [flush pending]. rewrite HpT, !Hmoved. reflexivity.
  - intros z c' Hz. cbn [flush stack surfaces] in *. rewrite HstT.
    destruct (surfaces T z) as [cz |] eqn:Ez.
    + destruct (Hrender z cz Ez) as (p & Hp & Hr & Hdoc & _).
      rewrite Hz in Hr. injection Hr as ->.
      split.
      * rewrite receive_props_props. exact Hp.
      * intros dz Hdz. rewrite Hdoc in Hdz.
        cbn [handleScroll sharedScrollTop].
        apply (HnearT z cz dz Ez Hdz).
    + unfold rendered in Hz. rewrite Ez in Hz. discriminate Hz.
  - split; [cbn [flush stack]; rewrite HstT; reflexivity |].
    intros y cy Hyx Hy. cbn [flush surfaces].
    assert (Hy' : surfaces T y = Some cy) by (rewrite HsT, Hyx; exact Hy).
    destruct (Hrender y cy Hy') as (p & _ & Hr & Hdoc & _).
    exists (receive_props p cy). split; [exact Hr |].
    split; [exact Hdoc | apply receive_props_emitted].
Qed.

Lemma small_scroll_is_not_propagated_witness :
  in_sync (run 1 (user_scroll Preview 2 sample_system))
  /\ sharedScrollTop (stack (run 1 (user_scroll Preview 2 sample_system)))
     = 2
  /\ exists cy',
       surfaces (run 1 (user_scroll Preview 2 sample_system)) Sandbox
       = Some cy'
       /\ contentDocument_opt cy' = Some (sample_document 0 0).
Proof.
  destruct (small_scroll_is_not_propagated sample_system Preview
              (loaded_surface "<p>a</p>" false) (sample_document 0 0) 2
              sample_system_in_sync eq_refl eq_refl)
    as (Hsync & Hshared & Hother).
  - discriminate.
  - discriminate.
  - intros [] cy dy Hyx Hy Hdy; [discriminate Hyx |].
    injection Hy as <-. injection Hdy as <-. vm_compute. discriminate.
  - split; [exact Hsync |]. split; [exact Hshared |].
    destruct (Hother Sandbox (loaded_surface "<p>b</p>" true) eq_refl eq_refl)
      as (cy' & Hs & Hd & _).
    exists cy'. split; assumption.
Defined.

(** ** 10.8 A loaded child and the shared position *)



Lemma assemble_injective_overrides (o1 o2 : string) (markers : bool)
      (content : string) :
  assemble o1 markers content = assemble o2 markers content -> o1 = o2.
Proof.
  unfold assemble. intro H.
  apply append_inv_head in H. apply append_inv_tail in H. exact H.
Qed.

(** X17.  The payload computed for the iframe follows the compiled
    style text: after the store is replaced, [srcdoc] returns the payload
    it returned before exactly when [generateStyleText] returns the text
    it returned before.  Every change of the compiled text is a change
    of the payload. *)
Theorem payload_follows_the_compiled_styles :
  forall (c : Instance) (v : JsValue),
    fst (srcdoc (set_styleOverrides v c)) = fst (srcdoc c)
    <-> fst (generateStyleText (set_styleOverrides v c))
        = fst (generateStyleText c).
Proof.
  intros c v. rewrite !srcdoc_run, !generateStyleText_run. cbn [fst].
  unfold payload_of. cbn [props set_styleOverrides]. split; intro H.
  - apply Normal_inj in H. apply assemble_injective_overrides in H.
    rewrite H. reflexivity.
  - apply Normal_inj in H. rewrite H. reflexivity.
Qed.
